(** * Subscriber-side image lists of the Aeron C client

    A shallow embedding of [aeron-client/src/main/c/aeron_subscription.c]:
    the creation of a subscription, the conductor's installation and pruning
    of image lists, and the application's round-robin poll over the images of
    the newest list.

    The structures are declared in [aeron_subscription.h]; the embedding
    gives them the fields the functions of the [.c] file use, with the types
    those uses show ([int32_t last_change_number], [size_t starting_index],
    [size_t length]) and, for the rest, the data model of the specification.

    Conventions of the embedding.
    - Pointers to objects that this file never looks into (the conductor, the
      images, the fragment handler and its [clientd], the availability
      callbacks) are addresses, [ptr].  Whatever they point to lives in an
      abstract [world], threaded through [aeron_image_poll].
    - [size_t] values are integers in [[0, 2^64)]; the one arithmetic
      operation on them, [round_robin_index++], wraps and is written with
      [size_wrap].
    - The change numbers are [int32_t], integers in [[-2^31, 2^31)]; the one
      arithmetic operation on them, [next_change_number++], wraps from
      2147483647 to -2147483648 and is written with [int32_wrap].
    - The fragment counts inside a poll are [int]; their sums and differences
      are written in [Z], which is the C arithmetic as long as the values stay
      within [int], as they do when every image reports between 0 and the
      limit it is given.
    - The chain of image lists hanging off [image_lists_head.next_list] is the
      list of its nodes, newest first: the [next_list] of a node is the rest
      of the list after it and [NULL] is the empty list.
    - A read through a [NULL] pointer, or outside an array, is [Fault]. *)

From Stdlib Require Import ZArith List Bool Lia Sorted Permutation String.
Import ListNotations.
Open Scope Z_scope.

Set Implicit Arguments.

(** ** Results of code that can fault *)

Inductive result (A : Type) : Type :=
| Ok (a : A)
| Fault.

Arguments Ok {A} a.
Arguments Fault {A}.

Definition bind {A B : Type} (r : result A) (k : A -> result B) : result B :=
  match r with
  | Ok a => k a
  | Fault => Fault
  end.

Notation "' p <- r ;; k" := (bind r (fun p => k))
  (at level 61, p pattern, r at next level, right associativity).

(** ** Machine integers *)

Definition ptr := Z.

Definition SIZE_MAX : Z := 2 ^ 64 - 1.

Definition size_wrap (x : Z) : Z := x mod 2 ^ 64.

Definition INT32_MAX : Z := 2147483647.

Definition INT32_MIN : Z := -2147483648.

Definition int32_wrap (x : Z) : Z :=
  (x + 2147483648) mod 4294967296 - 2147483648.

(** ** Data model *)

(** [aeron_image_list_t].  The [length] field is the number of slots of
    [array], both fixed by [aeron_subscription_alloc_image_list]; [next_list]
    is the position of the node in the chain. *)
Record aeron_image_list_t : Type := mk_image_list {
  change_number : Z;
  array : list ptr
}.

Definition length (l : aeron_image_list_t) : Z :=
  Z.of_nat (List.length (array l)).

Record conductor_fields_t : Type := mk_conductor_fields {
  image_lists_head : list aeron_image_list_t;
  next_change_number : Z
}.

Record aeron_subscription_t : Type := mk_subscription {
  conductor_fields : conductor_fields_t;
  conductor : ptr;
  channel : string;
  registration_id : Z;
  stream_id : Z;
  on_available_image : ptr;
  on_unavailable_image : ptr;
  last_image_list_change_number : Z;
  round_robin_index : Z;
  is_closed : bool
}.

Definition chain (s : aeron_subscription_t) : list aeron_image_list_t :=
  image_lists_head (conductor_fields s).

Definition set_conductor_fields (s : aeron_subscription_t)
    (cf : conductor_fields_t) : aeron_subscription_t :=
  mk_subscription cf (conductor s) (channel s) (registration_id s)
    (stream_id s) (on_available_image s) (on_unavailable_image s)
    (last_image_list_change_number s) (round_robin_index s) (is_closed s).

Definition set_last_image_list_change_number (s : aeron_subscription_t)
    (v : Z) : aeron_subscription_t :=
  mk_subscription (conductor_fields s) (conductor s) (channel s)
    (registration_id s) (stream_id s) (on_available_image s)
    (on_unavailable_image s) v (round_robin_index s) (is_closed s).

Definition set_round_robin_index (s : aeron_subscription_t)
    (v : Z) : aeron_subscription_t :=
  mk_subscription (conductor_fields s) (conductor s) (channel s)
    (registration_id s) (stream_id s) (on_available_image s)
    (on_unavailable_image s) (last_image_list_change_number s) v (is_closed s).

Definition set_is_closed (s : aeron_subscription_t)
    (b : bool) : aeron_subscription_t :=
  mk_subscription (conductor_fields s) (conductor s) (channel s)
    (registration_id s) (stream_id s) (on_available_image s)
    (on_unavailable_image s) (last_image_list_change_number s)
    (round_robin_index s) b.

(** ** aeron_subscription_create *)

(** What [aeron_alloc] answered: the block, or a negative return with
    [errno] set. *)
Inductive alloc_outcome : Type :=
| AllocOk
| AllocFail (errcode : Z).

(** The observable outcome of a call: the returned [int], the pointer left in
    [*subscription] ([None] is [NULL]) and the error code handed to
    [aeron_set_err], if any. *)
Record create_outcome : Type := mk_create_outcome {
  create_return : Z;
  create_subscription : option aeron_subscription_t;
  create_errcode : option Z
}.

Definition aeron_subscription_create (alloc : alloc_outcome)
    (conductor : ptr) (channel : string) (stream_id registration_id : Z)
    (on_available_image on_unavailable_image : ptr) : create_outcome :=
  match alloc with
  | AllocFail errcode =>
      mk_create_outcome (-1) None (Some errcode)
  | AllocOk =>
      let _subscription :=
        mk_subscription (mk_conductor_fields [] 0)
          conductor channel registration_id stream_id
          on_available_image on_unavailable_image
          (-1) 0 false in
      mk_create_outcome (-1) (Some _subscription) None
  end.

(** ** aeron_subscription_alloc_image_list *)

(** [slots] is the array part of the block [aeron_alloc] handed out, as the
    caller has filled it by the time the list is installed; the [length]
    argument of the call is the number of these slots. *)
Definition aeron_subscription_alloc_image_list (alloc : alloc_outcome)
    (slots : list ptr) : Z * option aeron_image_list_t :=
  match alloc with
  | AllocFail _ => (-1, None)
  | AllocOk => (0, Some (mk_image_list (-1) slots))
  end.

(** ** aeron_client_conductor_subscription_new_image_list *)

Definition aeron_client_conductor_subscription_new_image_list
    (s : aeron_subscription_t) (image_list : aeron_image_list_t)
    : aeron_subscription_t :=
  let cf := conductor_fields s in
  let installed := mk_image_list (next_change_number cf) (array image_list) in
  set_conductor_fields s
    (mk_conductor_fields (installed :: image_lists_head cf)
                         (int32_wrap (next_change_number cf + 1))).

(** ** aeron_client_conductor_subscription_prune_image_lists *)

(** The loop, from the node [prune_lists_head] stands on: the next node is
    either stepped over or unlinked and freed.  The result is the chain that
    remains after [prune_lists_head] and the nodes handed to [aeron_free], in
    the order they were freed. *)
Fixpoint prune_loop (last_change_number : Z)
    (next_list : list aeron_image_list_t)
    : list aeron_image_list_t * list aeron_image_list_t :=
  match next_list with
  | [] => ([], [])
  | node :: rest =>
      let (kept, freed) := prune_loop last_change_number rest in
      if change_number node >=? last_change_number
      then (node :: kept, freed)
      else (kept, node :: freed)
  end.

Definition aeron_client_conductor_subscription_prune_image_lists
    (s : aeron_subscription_t)
    : aeron_subscription_t * list aeron_image_list_t :=
  let last_change_number := last_image_list_change_number s in
  let (kept, freed) := prune_loop last_change_number (chain s) in
  (set_conductor_fields s
     (mk_conductor_fields kept (next_change_number (conductor_fields s))),
   freed).

(** ** aeron_subscription_poll *)

(** One call of [aeron_image_poll], as the poll loop made it. *)
Record image_poll_event : Type := mk_event {
  ev_index : nat;
  ev_image : ptr;
  ev_limit : Z;
  ev_fragments : Z
}.

Definition total_fragments (evs : list image_poll_event) : Z :=
  fold_right (fun ev acc => ev_fragments ev + acc) 0 evs.

Record poll_outcome (world : Type) : Type := mk_poll_outcome {
  poll_return : Z;
  poll_subscription : aeron_subscription_t;
  poll_world : world;
  poll_starting_index : Z;
  poll_events : list image_poll_event
}.

Section Poll.

Variable world : Type.

(** [aeron_image_poll image handler clientd fragment_limit]: the fragments
    it reports and the world it leaves. *)
Variable aeron_image_poll : ptr -> ptr -> ptr -> Z -> world -> Z * world.

(** [for (; i < bound && fragments_read < fragment_limit; i++)], with
    [remaining = bound - i]: the test [i < bound] is [remaining <> 0]. *)
Fixpoint poll_loop (handler clientd : ptr) (remaining : nat) (i : nat)
    (array : list ptr) (fragment_limit fragments_read : Z) (w : world)
    : result (Z * world * list image_poll_event) :=
  match remaining with
  | O => Ok (fragments_read, w, [])
  | S remaining' =>
      if fragments_read <? fragment_limit then
        match nth_error array i with
        | None => Fault
        | Some image =>
            let (n, w') :=
              aeron_image_poll image handler clientd
                (fragment_limit - fragments_read) w in
            let ev := mk_event i image (fragment_limit - fragments_read) n in
            ' (total, w'', evs) <-
               poll_loop handler clientd remaining' (S i) array fragment_limit
                 (fragments_read + n) w' ;;
            Ok (total, w'', ev :: evs)
        end
      else Ok (fragments_read, w, [])
  end.

Definition aeron_subscription_poll (s : aeron_subscription_t)
    (handler clientd : ptr) (fragment_limit : Z) (w : world)
    : result (poll_outcome world) :=
  match chain s with
  | [] => Fault
  | image_list :: _ =>
      let length := length image_list in
      let fragments_read := 0 in
      let starting_index := round_robin_index s in
      let s := set_round_robin_index s (size_wrap (round_robin_index s + 1)) in
      let (s, starting_index) :=
        if starting_index >=? length
        then (set_round_robin_index s 0, 0)
        else (s, starting_index) in
      let start := Z.to_nat starting_index in
      ' (fragments_read, w, evs1) <-
         poll_loop handler clientd
           (List.length (array image_list) - start) start
           (array image_list) fragment_limit fragments_read w ;;
      ' (fragments_read, w, evs2) <-
         poll_loop handler clientd start 0
           (array image_list) fragment_limit fragments_read w ;;
      let s :=
        if change_number image_list >? last_image_list_change_number s
        then set_last_image_list_change_number s (change_number image_list)
        else s in
      Ok (mk_poll_outcome fragments_read s w starting_index (evs1 ++ evs2))
  end.

(** [n] calls of poll in a row, nothing else touching the subscription in
    between; the outcomes in the order of the calls. *)
Fixpoint poll_repeat (n : nat) (s : aeron_subscription_t)
    (handler clientd : ptr) (fragment_limit : Z) (w : world)
    : result (list (poll_outcome world)) :=
  match n with
  | O => Ok []
  | S n' =>
      ' out <- aeron_subscription_poll s handler clientd fragment_limit w ;;
      ' outs <-
         poll_repeat n' (poll_subscription out) handler clientd
           fragment_limit (poll_world out) ;;
      Ok (out :: outs)
  end.

(** ** The life of one subscription *)

(** The change number of the list at the head of the chain, the one the last
    installation stamped ([-1], which no installed list carries, when there
    is none). *)
Definition installed_change_number (s : aeron_subscription_t) : Z :=
  match chain s with
  | [] => -1
  | image_list :: _ => change_number image_list
  end.

(** [history s vs]: [s] is a state the subscription can be in after its
    creation and any number of installations, pruning passes and polls, in
    any order; [vs] are the change numbers its installed image lists were
    given, the latest first. *)
Inductive history : aeron_subscription_t -> list Z -> Prop :=
| history_create alloc conductor channel stream_id registration_id
      on_available_image on_unavailable_image s :
    create_subscription
      (aeron_subscription_create alloc conductor channel stream_id
         registration_id on_available_image on_unavailable_image) = Some s ->
    history s []
| history_new_image_list s vs image_list :
    history s vs ->
    let s' := aeron_client_conductor_subscription_new_image_list s image_list in
    history s' (installed_change_number s' :: vs)
| history_prune s vs :
    history s vs ->
    history (fst (aeron_client_conductor_subscription_prune_image_lists s)) vs
| history_poll s vs handler clientd fragment_limit w out :
    history s vs ->
    aeron_subscription_poll s handler clientd fragment_limit w = Ok out ->
    history (poll_subscription out) vs.

Definition reachable (s : aeron_subscription_t) : Prop :=
  exists vs, history s vs.

End Poll.

(** What lines 140-144 and 156-159 of the source leave in the subscription
    when the list read from the head is [image_list], used to state what a
    poll does to it. *)
Definition starting_index_for (s : aeron_subscription_t)
    (image_list : aeron_image_list_t) : Z :=
  if round_robin_index s >=? length image_list then 0 else round_robin_index s.

Definition round_robin_index_after (s : aeron_subscription_t)
    (image_list : aeron_image_list_t) : Z :=
  if round_robin_index s >=? length image_list
  then 0
  else size_wrap (round_robin_index s + 1).

Definition last_change_number_after (s : aeron_subscription_t)
    (image_list : aeron_image_list_t) : Z :=
  if change_number image_list >? last_image_list_change_number s
  then change_number image_list
  else last_image_list_change_number s.

(** The change numbers along a chain fall strictly from the head on. *)
Definition newer (a b : aeron_image_list_t) : Prop :=
  change_number b < change_number a.

Definition chain_ordered (s : aeron_subscription_t) : Prop :=
  StronglySorted newer (chain s) /\
  Forall (fun node =>
            change_number node < next_change_number (conductor_fields s))
         (chain s).

(** Change numbers are handed out from 0 on. *)
Definition chain_from_zero (s : aeron_subscription_t) : Prop :=
  0 <= next_change_number (conductor_fields s) /\
  Forall (fun node => 0 <= change_number node) (chain s).

(** [vs] being the change numbers given so far, fewer than 2^31 image lists
    have been installed: the counter has not yet wrapped and the next
    installation still gets a number that fits. *)
Definition before_wrap (vs : list Z) : Prop :=
  Z.of_nat (List.length vs) <= INT32_MAX.

(** ** Concrete subscriptions and images, for the examples below *)

Module Sample.

(** A world with nothing in it, and images that always have as many
    fragments ready as they are asked for. *)
Definition eager_image_poll (image handler clientd : ptr)
    (fragment_limit : Z) (w : unit) : Z * unit :=
  (fragment_limit, w).


(** Scenario A of the specification: image 11 has two fragments, image 12
    none, image 13 one, whatever the limit allows. *)
Definition scenario_image_poll (image handler clientd : ptr)
    (fragment_limit : Z) (w : unit) : Z * unit :=
  (Z.min fragment_limit
     (if image =? 11 then 2 else if image =? 13 then 1 else 0), w).

Definition three_images : aeron_image_list_t :=
  mk_image_list (-1) [11; 12; 13].

(** Images that hand over at most two fragments per call. *)
Definition slow_image_poll (image handler clientd : ptr)
    (fragment_limit : Z) (w : unit) : Z * unit :=
  (Z.min fragment_limit 2, w).

Definition created : aeron_subscription_t :=
  mk_subscription (mk_conductor_fields [] 0) 100 "aeron:ipc" 7 1001
    200 300 (-1) 0 false.

Definition two_images : aeron_image_list_t := mk_image_list (-1) [11; 12].

Definition one_image : aeron_image_list_t := mk_image_list (-1) [11].

(** v0 = [I1, I2] installed. *)
Definition installed_once : aeron_subscription_t :=
  aeron_client_conductor_subscription_new_image_list created two_images.

(** v0 = [I1, I2], then v1 = [I1], no poll in between. *)
Definition installed_twice : aeron_subscription_t :=
  aeron_client_conductor_subscription_new_image_list installed_once one_image.

(** The same after close has set the flag. *)
Definition closed_subscription : aeron_subscription_t :=
  set_is_closed installed_once true.

End Sample.

(** ** aeron_subscription_delete *)

(** What [aeron_free] can be handed in this file. *)
Inductive freed_block : Type :=
| FreedChannel (channel : string)
| FreedSubscription (s : aeron_subscription_t)
| FreedImageList (image_list : aeron_image_list_t).

(** The returned [int] and the blocks handed to [aeron_free], in order: the
    channel, then the subscription.  The chain is not walked. *)
Definition aeron_subscription_delete (s : aeron_subscription_t)
    : Z * list freed_block :=
  (0, [FreedChannel (channel s); FreedSubscription s]).

(** ** Notions used by the further properties *)

(** [n] installations in a row, of a list with one image each, nothing
    else happening in between. *)
Definition install_repeat (n : N) (s : aeron_subscription_t)
    : aeron_subscription_t :=
  N.iter n
    (fun s' =>
       aeron_client_conductor_subscription_new_image_list s' Sample.one_image)
    s.

(** The slots of an array of [n] images in the order a poll that starts at
    [start] goes through them. *)
Definition rotation (start n : nat) : list nat :=
  seq start (n - start) ++ seq 0 start.

(** The subscription and the world that a run of polls leaves. *)
Definition final_subscription (world : Type) (s : aeron_subscription_t)
    (outs : list (poll_outcome world)) : aeron_subscription_t :=
  fold_left (fun _ out => poll_subscription out) outs s.

Definition final_world (world : Type) (w : world)
    (outs : list (poll_outcome world)) : world :=
  fold_left (fun _ out => poll_world out) outs w.

Section Lifecycle.

Variable world : Type.
Variable aeron_image_poll : ptr -> ptr -> ptr -> Z -> world -> Z * world.

(** [lifecycle s installed freed]: as [history], keeping the image lists
    themselves: [installed] are the lists as they were linked in, the latest
    first, and [freed] those the pruning passes have handed to [aeron_free]
    so far, the latest pass first. *)
Inductive lifecycle :
  aeron_subscription_t -> list aeron_image_list_t ->
  list aeron_image_list_t -> Prop :=
| lifecycle_create alloc conductor channel stream_id registration_id
      on_available_image on_unavailable_image s :
    create_subscription
      (aeron_subscription_create alloc conductor channel stream_id
         registration_id on_available_image on_unavailable_image) = Some s ->
    lifecycle s [] []
| lifecycle_new_image_list s installed freed image_list node rest :
    lifecycle s installed freed ->
    chain (aeron_client_conductor_subscription_new_image_list s image_list)
      = node :: rest ->
    lifecycle (aeron_client_conductor_subscription_new_image_list s image_list)
      (node :: installed) freed
| lifecycle_prune s installed freed :
    lifecycle s installed freed ->
    lifecycle (fst (aeron_client_conductor_subscription_prune_image_lists s))
      installed
      (snd (aeron_client_conductor_subscription_prune_image_lists s) ++ freed)
| lifecycle_poll s installed freed handler clientd fragment_limit w out :
    lifecycle s installed freed ->
    aeron_subscription_poll aeron_image_poll s handler clientd fragment_limit w
      = Ok out ->
    lifecycle (poll_subscription out) installed freed.

End Lifecycle.

(** * Properties *)

(** ** Pruning is a partition of the chain *)

Lemma prune_loop_filter (last : Z) (l : list aeron_image_list_t) :
  prune_loop last l =
  (filter (fun node => change_number node >=? last) l,
   filter (fun node => negb (change_number node >=? last)) l).
Proof.
  induction l as [|node rest IH]; simpl; [reflexivity|].
  rewrite IH. destruct (change_number node >=? last); reflexivity.
Qed.

Lemma StronglySorted_filter_newer (f : aeron_image_list_t -> bool)
    (l : list aeron_image_list_t) :
  StronglySorted newer l -> StronglySorted newer (filter f l).
Proof.
  induction 1 as [|a l Hl IH Ha]; simpl; [constructor|].
  destruct (f a); [|assumption].
  constructor; [assumption|].
  rewrite Forall_forall in *. intros x Hx.
  apply filter_In in Hx. apply Ha, Hx.
Qed.

Lemma Forall_filter_keeps (A : Type) (P : A -> Prop) (f : A -> bool)
    (l : list A) :
  Forall P l -> Forall P (filter f l).
Proof.
  rewrite !Forall_forall. intros H x Hx. apply filter_In in Hx. apply H, Hx.
Qed.

Lemma prune_fields (s : aeron_subscription_t) :
  let s' := fst (aeron_client_conductor_subscription_prune_image_lists s) in
  chain s' =
    filter (fun node => change_number node >=? last_image_list_change_number s)
           (chain s) /\
  next_change_number (conductor_fields s') =
    next_change_number (conductor_fields s) /\
  last_image_list_change_number s' = last_image_list_change_number s /\
  round_robin_index s' = round_robin_index s.
Proof.
  unfold aeron_client_conductor_subscription_prune_image_lists.
  rewrite prune_loop_filter. simpl. auto.
Qed.

Lemma prune_freed (s : aeron_subscription_t) :
  snd (aeron_client_conductor_subscription_prune_image_lists s) =
  filter (fun node =>
            negb (change_number node >=? last_image_list_change_number s))
         (chain s).
Proof.
  unfold aeron_client_conductor_subscription_prune_image_lists.
  rewrite prune_loop_filter. reflexivity.
Qed.

Lemma filter_all (A : Type) (f : A -> bool) (l : list A) :
  Forall (fun x => f x = true) l -> filter f l = l.
Proof.
  induction 1 as [|a l Ha _ IH]; simpl; [reflexivity|].
  rewrite Ha, IH. reflexivity.
Qed.

Lemma filter_none (A : Type) (f : A -> bool) (l : list A) :
  Forall (fun x => f x = true) l -> filter (fun x => negb (f x)) l = [].
Proof.
  induction 1 as [|a l Ha _ IH]; simpl; [reflexivity|].
  rewrite Ha, IH. reflexivity.
Qed.

(** ** Installation and pruning keep the chain ordered *)

(** Below its top value the counter increments as an integer does. *)
Lemma int32_wrap_small (x : Z) :
  INT32_MIN <= x <= INT32_MAX -> int32_wrap x = x.
Proof.
  unfold INT32_MIN, INT32_MAX, int32_wrap. intros Hx.
  rewrite Z.mod_small by lia. lia.
Qed.

(** At its top value the counter wraps to the bottom one. *)
Lemma int32_wrap_top : int32_wrap (INT32_MAX + 1) = INT32_MIN.
Proof. reflexivity. Qed.

Lemma new_image_list_ordered (s : aeron_subscription_t)
    (image_list : aeron_image_list_t) :
  INT32_MIN <= next_change_number (conductor_fields s) < INT32_MAX ->
  chain_ordered s ->
  chain_ordered (aeron_client_conductor_subscription_new_image_list s image_list).
Proof.
  intros Hnext [Hsorted Hbound]. unfold chain_ordered, chain in *. simpl.
  rewrite int32_wrap_small by (unfold INT32_MIN, INT32_MAX in *; lia).
  split.
  - constructor; [assumption|].
    eapply Forall_impl; [|exact Hbound].
    intros node Hnode. unfold newer. cbn in Hnode |- *. lia.
  - constructor; [simpl; lia|].
    eapply Forall_impl; [|exact Hbound].
    intros node Hnode. cbv beta in Hnode. lia.
Qed.

Lemma prune_ordered (s : aeron_subscription_t) :
  chain_ordered s ->
  chain_ordered (fst (aeron_client_conductor_subscription_prune_image_lists s)).
Proof.
  intros [Hsorted Hbound].
  destruct (prune_fields s) as (Hchain & Hnext & _).
  unfold chain_ordered. rewrite Hchain, Hnext. split.
  - apply StronglySorted_filter_newer, Hsorted.
  - apply Forall_filter_keeps, Hbound.
Qed.

Lemma new_image_list_from_zero (s : aeron_subscription_t)
    (image_list : aeron_image_list_t) :
  next_change_number (conductor_fields s) < INT32_MAX ->
  chain_from_zero s ->
  chain_from_zero
    (aeron_client_conductor_subscription_new_image_list s image_list).
Proof.
  intros Hmax [Hnext Hall]. unfold chain_from_zero, chain in *. simpl.
  rewrite int32_wrap_small by (unfold INT32_MIN, INT32_MAX in *; lia).
  split; [lia|]. constructor; [simpl; lia|assumption].
Qed.

Lemma prune_from_zero (s : aeron_subscription_t) :
  chain_from_zero s ->
  chain_from_zero
    (fst (aeron_client_conductor_subscription_prune_image_lists s)).
Proof.
  intros [Hnext Hall].
  destruct (prune_fields s) as (Hchain & Hnext' & _).
  unfold chain_from_zero. rewrite Hchain, Hnext'. split; [assumption|].
  apply Forall_filter_keeps, Hall.
Qed.

(** ** The polling loops *)

Lemma total_fragments_app (evs1 evs2 : list image_poll_event) :
  total_fragments (evs1 ++ evs2) = total_fragments evs1 + total_fragments evs2.
Proof.
  induction evs1 as [|ev evs IH]; simpl; [reflexivity|].
  fold (total_fragments (evs ++ evs2)) (total_fragments evs). lia.
Qed.

(** The starting index is a slot of the array, or 0 when there is none. *)
Lemma starting_index_le (s : aeron_subscription_t)
    (image_list : aeron_image_list_t) :
  (Z.to_nat (starting_index_for s image_list)
   <= List.length (array image_list))%nat.
Proof.
  unfold starting_index_for, length.
  destruct (Z.geb_spec (round_robin_index s)
              (Z.of_nat (List.length (array image_list)))); lia.
Qed.

Lemma starting_index_lt (s : aeron_subscription_t)
    (image_list : aeron_image_list_t) :
  array image_list <> [] ->
  (Z.to_nat (starting_index_for s image_list)
   < List.length (array image_list))%nat.
Proof.
  unfold starting_index_for, length. intros Hne.
  destruct (array image_list) as [|a l]; [congruence|]. simpl List.length.
  destruct (Z.geb_spec (round_robin_index s) (Z.of_nat (S (List.length l))));
    lia.
Qed.

Section PollLoop.

Variable world : Type.
Variable aeron_image_poll : ptr -> ptr -> ptr -> Z -> world -> Z * world.
Variables handler clientd : ptr.

Let loop := poll_loop aeron_image_poll handler clientd.

Lemma poll_loop_total (n i : nat) (arr : list ptr) (limit f : Z) (w : world) :
  (i + n <= List.length arr)%nat ->
  exists r, loop n i arr limit f w = Ok r.
Proof.
  unfold loop. revert i f w. induction n as [|n IH]; intros i f w Hlen; simpl.
  - eauto.
  - destruct (f <? limit); [|eauto].
    destruct (nth_error arr i) as [image|] eqn:E.
    + destruct (aeron_image_poll image handler clientd (limit - f) w)
        as [k w'].
      destruct (IH (S i) (f + k) w') as [[[f' w''] evs] Hr]; [lia|].
      rewrite Hr. simpl. eauto.
    + apply nth_error_None in E. lia.
Qed.

Lemma poll_loop_events (n i : nat) (arr : list ptr) (limit f : Z) (w : world)
    (f' : Z) (w' : world) (evs : list image_poll_event) :
  loop n i arr limit f w = Ok (f', w', evs) ->
  map ev_index evs = seq i (List.length evs) /\
  (List.length evs <= n)%nat /\
  f' = f + total_fragments evs /\
  Forall (fun ev => nth_error arr (ev_index ev) = Some (ev_image ev)) evs.
Proof.
  unfold loop.
  revert i f w f' w' evs. induction n as [|n IH]; intros i f w f' w' evs; simpl.
  - intros [= <- <- <-]. simpl. repeat split; auto; lia.
  - destruct (f <? limit).
    2:{ intros [= <- <- <-]. simpl. repeat split; auto; lia. }
    destruct (nth_error arr i) as [image|] eqn:E; [|discriminate].
    destruct (aeron_image_poll image handler clientd (limit - f) w)
      as [k w1] eqn:Ek.
    destruct (poll_loop aeron_image_poll handler clientd n (S i) arr limit
                (f + k) w1) as [[[f2 w2] evs2]|] eqn:Er; [|discriminate].
    simpl. intros [= <- <- <-].
    destruct (IH _ _ _ _ _ _ Er) as (Hidx & Hlen & Hsum & Himg).
    simpl. rewrite Hidx. repeat split; auto; try lia.
Qed.

Lemma poll_loop_first (n i : nat) (arr : list ptr) (limit f : Z) (w : world)
    (f' : Z) (w' : world) (evs : list image_poll_event) :
  loop (S n) i arr limit f w = Ok (f', w', evs) ->
  f < limit ->
  exists ev evs', evs = ev :: evs' /\ ev_index ev = i.
Proof.
  unfold loop. simpl. intros H Hlt.
  destruct (Z.ltb_spec f limit); [|lia].
  destruct (nth_error arr i) as [image|]; [|discriminate].
  destruct (aeron_image_poll image handler clientd (limit - f) w) as [k w1].
  destruct (poll_loop aeron_image_poll handler clientd n (S i) arr limit
              (f + k) w1) as [[[f2 w2] evs2]|]; [|discriminate].
  simpl in H. injection H as <- <- <-. eauto.
Qed.

(** With images that report between [0] and the limit they are given, the
    count never passes the caller's limit. *)
Lemma poll_loop_bounded (n i : nat) (arr : list ptr) (limit f : Z) (w : world)
    (f' : Z) (w' : world) (evs : list image_poll_event) :
  (forall image l w0,
      0 < l -> 0 <= fst (aeron_image_poll image handler clientd l w0) <= l) ->
  loop n i arr limit f w = Ok (f', w', evs) ->
  f <= limit ->
  f <= f' <= limit.
Proof.
  unfold loop. intros Hpoll. revert i f w f' w' evs.
  induction n as [|n IH]; intros i f w f' w' evs; simpl.
  - intros [= <- <- <-]. lia.
  - destruct (Z.ltb_spec f limit).
    2:{ intros [= <- <- <-]. lia. }
    destruct (nth_error arr i) as [image|] eqn:E; [|discriminate].
    pose proof (Hpoll image (limit - f) w ltac:(lia)) as Hk.
    destruct (aeron_image_poll image handler clientd (limit - f) w)
      as [k w1] eqn:Ek.
    destruct (poll_loop aeron_image_poll handler clientd n (S i) arr limit
                (f + k) w1) as [[[f2 w2] evs2]|] eqn:Er; [|discriminate].
    simpl. intros [= <- <- <-] _. simpl in Hk.
    specialize (IH _ _ _ _ _ _ Er). lia.
Qed.

(** What a poll on a subscription with an installed list comes to. *)
Lemma poll_unfold (s : aeron_subscription_t) (image_list : aeron_image_list_t)
    (rest : list aeron_image_list_t) (limit : Z) (w : world) :
  chain s = image_list :: rest ->
  let start := Z.to_nat (starting_index_for s image_list) in
  exists f1 w1 evs1 f2 w2 evs2 out,
    loop (List.length (array image_list) - start) start
         (array image_list) limit 0 w = Ok (f1, w1, evs1) /\
    loop start 0 (array image_list) limit f1 w1 = Ok (f2, w2, evs2) /\
    aeron_subscription_poll aeron_image_poll s handler clientd limit w
      = Ok out /\
    poll_return out = f2 /\
    poll_world out = w2 /\
    poll_starting_index out = starting_index_for s image_list /\
    poll_events out = evs1 ++ evs2 /\
    conductor_fields (poll_subscription out) = conductor_fields s /\
    round_robin_index (poll_subscription out)
      = round_robin_index_after s image_list /\
    last_image_list_change_number (poll_subscription out)
      = last_change_number_after s image_list /\
    is_closed (poll_subscription out) = is_closed s.
Proof.
  intros Hchain start.
  assert (Hstart : (start <= List.length (array image_list))%nat)
    by apply starting_index_le.
  destruct (@poll_loop_total (List.length (array image_list) - start) start
              (array image_list) limit 0 w) as [[[f1 w1] evs1] H1]; [lia|].
  destruct (@poll_loop_total start 0 (array image_list) limit f1 w1)
    as [[[f2 w2] evs2] H2]; [lia|].
  exists f1, w1, evs1, f2, w2, evs2.
  unfold aeron_subscription_poll. rewrite Hchain.
  unfold start, starting_index_for, round_robin_index_after,
    last_change_number_after in *.
  unfold loop in H1, H2.
  destruct (round_robin_index s >=? length image_list);
    cbv beta iota zeta in *; rewrite H1; cbn [bind]; rewrite H2; cbn [bind];
    cbn [set_round_robin_index last_image_list_change_number];
    destruct (change_number image_list >? last_image_list_change_number s);
    eexists; repeat split; first [eassumption | reflexivity].
Qed.

End PollLoop.

(** ** Creation *)

(** C3: the return value of [aeron_subscription_create] does not tell success
    from failure.  When [aeron_alloc] succeeds the call leaves the initialised
    subscription in [*subscription] and still returns [-1], the value it
    returns when [aeron_alloc] fails; on failure it leaves [NULL], no partial
    object. *)
Theorem create_returns_failure_code_on_success :
  forall (conductor : ptr) (channel : string) (stream_id registration_id : Z)
         (on_available_image on_unavailable_image : ptr),
    let ok :=
      aeron_subscription_create AllocOk conductor channel stream_id
        registration_id on_available_image on_unavailable_image in
    create_return ok = -1 /\
    (exists s,
        create_subscription ok = Some s /\
        chain s = [] /\
        next_change_number (conductor_fields s) = 0 /\
        last_image_list_change_number s = -1 /\
        round_robin_index s = 0 /\
        is_closed s = false) /\
    forall errcode,
      let failed :=
        aeron_subscription_create (AllocFail errcode) conductor channel
          stream_id registration_id on_available_image on_unavailable_image in
      create_return failed = create_return ok /\
      create_subscription failed = None.
Proof.
  intros. simpl. split; [reflexivity|]. split.
  - eexists. repeat split.
  - intros. split; reflexivity.
Qed.

Section Properties.

Variable world : Type.
Variable aeron_image_poll : ptr -> ptr -> ptr -> Z -> world -> Z * world.

Let poll := aeron_subscription_poll aeron_image_poll.

(** A poll that returns has read an installed list, and touches nothing of
    the subscription but the cursor and the last change number. *)
Lemma poll_ok_inv (s : aeron_subscription_t) (handler clientd : ptr)
    (limit : Z) (w : world) (out : poll_outcome world) :
  poll s handler clientd limit w = Ok out ->
  exists image_list rest,
    chain s = image_list :: rest /\
    conductor_fields (poll_subscription out) = conductor_fields s /\
    round_robin_index (poll_subscription out)
      = round_robin_index_after s image_list /\
    last_image_list_change_number (poll_subscription out)
      = last_change_number_after s image_list /\
    poll_starting_index out = starting_index_for s image_list.
Proof.
  intros Hout. destruct (chain s) as [|image_list rest] eqn:Hchain.
  - unfold poll, aeron_subscription_poll in Hout. rewrite Hchain in Hout.
    discriminate.
  - destruct (poll_unfold aeron_image_poll handler clientd s limit w Hchain)
      as (f1 & w1 & evs1 & f2 & w2 & evs2 & out' & _ & _ & Hpoll & _ & _
          & Hstart & _ & Hcf & Hrr & Hlast & _).
    unfold poll in Hout. rewrite Hpoll in Hout. injection Hout as <-.
    exists image_list, rest. auto.
Qed.

(** *** What every state satisfies until the counter wraps *)

Lemma before_wrap_tail (v : Z) (vs : list Z) :
  before_wrap (v :: vs) ->
  before_wrap vs /\ Z.of_nat (List.length vs) < INT32_MAX.
Proof.
  unfold before_wrap. cbn [List.length]. lia.
Qed.

Lemma history_invariant (s : aeron_subscription_t) (vs : list Z) :
  history aeron_image_poll s vs ->
  before_wrap vs ->
  next_change_number (conductor_fields s) = Z.of_nat (List.length vs) /\
  chain_ordered s /\
  chain_from_zero s /\
  Forall (fun v => v < next_change_number (conductor_fields s)) vs /\
  StronglySorted Z.gt vs.
Proof.
  induction 1 as [alloc cd ch st rg av un s Hs
                 | s vs image_list Hh IH
                 | s vs Hh IH
                 | s vs handler clientd limit w out Hh IH Hpoll];
    intros Hwrap.
  - destruct alloc; simpl in Hs; [|discriminate].
    injection Hs as <-.
    unfold chain_ordered, chain_from_zero, chain. simpl.
    repeat split; try constructor. lia.
  - apply before_wrap_tail in Hwrap. destruct Hwrap as [Hwrap Hlt].
    destruct (IH Hwrap) as (Hnext & Hord & Hzero & Hvs & Hsorted).
    assert (Hrange : INT32_MIN
                     <= next_change_number (conductor_fields s) < INT32_MAX)
      by (unfold INT32_MIN; lia).
    split; [|split; [apply new_image_list_ordered; assumption|]].
    { unfold chain. cbn [List.length]. simpl.
      rewrite int32_wrap_small by (unfold INT32_MIN, INT32_MAX in *; lia).
      lia. }
    split; [apply new_image_list_from_zero; [lia|exact Hzero]|].
    unfold installed_change_number, chain. simpl.
    rewrite int32_wrap_small by (unfold INT32_MIN, INT32_MAX in *; lia).
    split.
    + constructor; [lia|].
      eapply Forall_impl; [|exact Hvs]. intros v Hv. cbv beta in Hv. lia.
    + constructor; [assumption|].
      eapply Forall_impl; [|exact Hvs]. intros v Hv. cbv beta in Hv. lia.
  - destruct (IH Hwrap) as (Hnext & Hord & Hzero & Hvs & Hsorted).
    destruct (prune_fields s) as (_ & Hnext' & _). rewrite Hnext'.
    split; [exact Hnext|].
    split; [apply prune_ordered, Hord|].
    split; [apply prune_from_zero, Hzero|]. auto.
  - destruct (IH Hwrap) as (Hnext & Hord & Hzero & Hvs & Hsorted).
    destruct (poll_ok_inv _ _ _ _ _ Hpoll) as (il & rest & _ & Hcf & _).
    unfold chain_ordered, chain_from_zero, chain in *. rewrite Hcf. auto.
Qed.

(** Through the first 2^31 installations no list is stamped below 0. *)
Lemma history_nonneg (s : aeron_subscription_t) (vs : list Z) :
  history aeron_image_poll s vs ->
  Z.of_nat (List.length vs) <= INT32_MAX + 1 ->
  Forall (fun node => 0 <= change_number node) (chain s).
Proof.
  induction 1 as [alloc cd ch st rg av un s Hs
                 | s vs image_list Hh IH
                 | s vs Hh IH
                 | s vs handler clientd limit w out Hh IH Hpoll];
    intros Hlen.
  - destruct alloc; simpl in Hs; [|discriminate].
    injection Hs as <-. constructor.
  - cbn [List.length] in Hlen.
    assert (Hwrap : before_wrap vs) by (unfold before_wrap; lia).
    destruct (history_invariant Hh Hwrap) as (_ & _ & [Hnext Hall] & _).
    unfold chain in *. simpl. constructor; [simpl; lia|exact Hall].
  - destruct (prune_fields s) as (Hchain & _). rewrite Hchain.
    apply Forall_filter_keeps, IH, Hlen.
  - destruct (poll_ok_inv _ _ _ _ _ Hpoll) as (il & rest & _ & Hcf & _).
    unfold chain in *. rewrite Hcf. apply IH, Hlen.
Qed.

(** ** Pruning *)

(** C2 as the code has it: a pruning pass frees only nodes whose change
    number is below the value of [last_image_list_change_number] it read at
    its start: every freed node is below it and every node at or above it
    stays in the chain.  While that field still holds the initial -1, on a
    subscription on which at most 2^31 lists have been installed since its
    creation (so that no change number has wrapped below 0), the pass frees
    nothing and leaves the chain as it is. *)
Theorem prune_reclamation_safety :
  forall s : aeron_subscription_t,
    let pruned := aeron_client_conductor_subscription_prune_image_lists s in
    (forall node,
        In node (snd pruned) ->
        change_number node < last_image_list_change_number s) /\
    (forall node,
        In node (chain s) ->
        change_number node >= last_image_list_change_number s ->
        In node (chain (fst pruned)) /\ ~ In node (snd pruned)) /\
    (forall vs,
        history aeron_image_poll s vs ->
        Z.of_nat (List.length vs) <= INT32_MAX + 1 ->
        last_image_list_change_number s = -1 ->
        snd pruned = [] /\ chain (fst pruned) = chain s).
Proof.
  intros s pruned. unfold pruned.
  destruct (prune_fields s) as (Hchain & _).
  rewrite Hchain, prune_freed.
  split; [|split; [intros node Hin Hge; split
                  |intros vs Hh Hwrap Hlast; split]].
  - intros node Hin. apply filter_In in Hin. destruct Hin as [_ Hlt].
    destruct (Z.geb_spec (change_number node)
                (last_image_list_change_number s)); [discriminate|lia].
  - apply filter_In. split; [assumption|].
    destruct (Z.geb_spec (change_number node)
                (last_image_list_change_number s)); [reflexivity|lia].
  - intros Hin'. apply filter_In in Hin'. destruct Hin' as [_ Hlt].
    destruct (Z.geb_spec (change_number node)
                (last_image_list_change_number s)); [discriminate|lia].
  - pose proof (history_nonneg Hh Hwrap) as Hzero.
    apply filter_none. eapply Forall_impl; [|exact Hzero].
    intros node Hnode. cbv beta in Hnode. rewrite Hlast.
    destruct (Z.geb_spec (change_number node) (-1)); [reflexivity|lia].
  - pose proof (history_nonneg Hh Hwrap) as Hzero.
    apply filter_all. eapply Forall_impl; [|exact Hzero].
    intros node Hnode. cbv beta in Hnode. rewrite Hlast.
    destruct (Z.geb_spec (change_number node) (-1)); [reflexivity|lia].
Qed.

(** ** Installation *)

(** C5 as the code has it: as long as fewer than 2^31 image lists have been
    installed on a subscription since its creation, whatever pruning passes
    and polls came in between, the list about to be installed gets a change
    number above all those given before; so the numbers given so far, latest
    first, fall strictly and none occurs twice.  This covers the first 2^31
    installations. *)
Theorem change_numbers_strictly_increase :
  forall (s : aeron_subscription_t) (vs : list Z),
    history aeron_image_poll s vs ->
    before_wrap vs ->
    (forall image_list,
        let s' :=
          aeron_client_conductor_subscription_new_image_list s image_list in
        Forall (fun v => v < installed_change_number s') vs) /\
    StronglySorted Z.gt vs /\
    NoDup vs.
Proof.
  intros s vs Hh Hwrap.
  destruct (history_invariant Hh Hwrap) as (_ & _ & _ & Hvs & Hsorted).
  split; [|split].
  - intros image_list s'. unfold s', installed_change_number, chain. simpl.
    exact Hvs.
  - exact Hsorted.
  - clear Hvs Hh Hwrap. induction Hsorted as [|v vs Hs IH Hv]; constructor.
    + intros Hin. rewrite Forall_forall in Hv. specialize (Hv v Hin). lia.
    + exact IH.
Qed.

(** C9 as the code has it: in every state reached from the creation of the
    subscription by installations and pruning passes in any order (polls may
    come in between as well), as long as fewer than 2^31 lists have been
    installed, the change numbers along the chain fall strictly from the
    head on and all lie below [next_change_number].  An installation keeps
    that while [next_change_number] is below its top value 2147483647, and a
    pruning pass always keeps it. *)
Theorem chain_ordering_invariant :
  (forall s vs,
      history aeron_image_poll s vs -> before_wrap vs -> chain_ordered s) /\
  (forall s image_list,
      INT32_MIN <= next_change_number (conductor_fields s) < INT32_MAX ->
      chain_ordered s ->
      chain_ordered
        (aeron_client_conductor_subscription_new_image_list s image_list)) /\
  (forall s,
      chain_ordered s ->
      chain_ordered
        (fst (aeron_client_conductor_subscription_prune_image_lists s))).
Proof.
  split; [|split].
  - intros s vs Hh Hwrap. apply (history_invariant Hh Hwrap).
  - apply new_image_list_ordered.
  - apply prune_ordered.
Qed.

End Properties.

(** ** Polling *)

Section PollProperties.

Variable world : Type.
Variable aeron_image_poll : ptr -> ptr -> ptr -> Z -> world -> Z * world.

Let poll := aeron_subscription_poll aeron_image_poll.

(** C1: the code does not have the guard.  On the subscription that
    [aeron_subscription_create] hands out, whose head has no list yet, poll
    reads [image_list->length] through the [NULL] it loaded: a fault, not a
    return of 0. *)
Theorem poll_before_first_image_list_faults :
  forall (conductor : ptr) (channel : string) (stream_id registration_id : Z)
         (on_available_image on_unavailable_image : ptr)
         (handler clientd : ptr) (fragment_limit : Z) (w : world),
    match
      create_subscription
        (aeron_subscription_create AllocOk conductor channel stream_id
           registration_id on_available_image on_unavailable_image)
    with
    | Some s =>
        chain s = [] /\
        poll s handler clientd fragment_limit w = Fault
    | None => False
    end.
Proof.
  intros. simpl. split; reflexivity.
Qed.

(** With a positive limit and a list that has images, the first image
    polled is the one at the starting index. *)
Lemma poll_first_event (s : aeron_subscription_t)
    (image_list : aeron_image_list_t) (rest : list aeron_image_list_t)
    (handler clientd : ptr) (limit : Z) (w : world)
    (out : poll_outcome world) :
  chain s = image_list :: rest ->
  array image_list <> [] ->
  0 < limit ->
  poll s handler clientd limit w = Ok out ->
  exists ev evs,
    poll_events out = ev :: evs /\
    ev_index ev = Z.to_nat (poll_starting_index out).
Proof.
  intros Hchain Hne Hlimit Hout.
  destruct (poll_unfold aeron_image_poll handler clientd s limit w Hchain)
    as (f1 & w1 & evs1 & f2 & w2 & evs2 & out' & H1 & _ & Hpoll & _ & _
        & Hstart & Hevs & _).
  unfold poll in Hout. rewrite Hpoll in Hout. injection Hout as <-.
  rewrite Hevs, Hstart.
  pose proof (@starting_index_lt s image_list Hne) as Hlt.
  destruct (List.length (array image_list)
            - Z.to_nat (starting_index_for s image_list))%nat
    as [|n] eqn:En; [lia|].
  eapply poll_loop_first in H1 as (ev & evs & -> & Hidx); [|exact Hlimit].
  exists ev, (evs ++ evs2). split; [reflexivity|exact Hidx].
Qed.

(** C6: on a list of [n] images, with a positive limit and images that each
    report between 0 and the limit they are given, one poll calls
    [aeron_image_poll] at most [n] times, on slots of the array that are all
    different, and returns between 0 and [fragment_limit]. *)
Theorem poll_bounded_work :
  forall (s : aeron_subscription_t) (image_list : aeron_image_list_t)
         (rest : list aeron_image_list_t) (handler clientd : ptr)
         (fragment_limit : Z) (w : world),
    chain s = image_list :: rest ->
    0 < fragment_limit ->
    (forall image l w0,
        0 < l ->
        0 <= fst (aeron_image_poll image handler clientd l w0) <= l) ->
    exists out,
      poll s handler clientd fragment_limit w = Ok out /\
      (List.length (poll_events out) <= List.length (array image_list))%nat /\
      NoDup (map ev_index (poll_events out)) /\
      Forall (fun ev =>
                nth_error (array image_list) (ev_index ev) = Some (ev_image ev))
             (poll_events out) /\
      0 <= poll_return out <= fragment_limit.
Proof.
  intros s image_list rest handler clientd limit w Hchain Hlimit Himg.
  destruct (poll_unfold aeron_image_poll handler clientd s limit w Hchain)
    as (f1 & w1 & evs1 & f2 & w2 & evs2 & out & H1 & H2 & Hpoll & Hret & _
        & _ & Hevs & _).
  exists out. split; [exact Hpoll|].
  pose proof H1 as Hb1. pose proof H2 as Hb2.
  eapply poll_loop_bounded in Hb1; [|solve [exact Himg | lia] ..].
  eapply poll_loop_bounded in Hb2; [|solve [exact Himg | lia] ..].
  apply poll_loop_events in H1 as (Hi1 & Hn1 & _ & Hs1).
  apply poll_loop_events in H2 as (Hi2 & Hn2 & _ & Hs2).
  pose proof (starting_index_le s image_list) as Hstart.
  rewrite Hevs, Hret. repeat split.
  - rewrite length_app. lia.
  - rewrite map_app, Hi1, Hi2. apply NoDup_app; try apply seq_NoDup.
    intros a Ha Hb. apply in_seq in Ha, Hb. lia.
  - apply Forall_app. split; assumption.
  - lia.
  - lia.
Qed.


(** C8 as the code has it: poll never reads [is_closed].  On a subscription
    with the flag set to [b], whatever [b] is, poll does what it does on
    the same subscription with the flag as it was (the same return value,
    the same calls of [aeron_image_poll], the same cursor and last change
    number, or the same fault) and leaves the flag at [b]. *)
Theorem poll_ignores_is_closed :
  forall (s : aeron_subscription_t) (b : bool) (handler clientd : ptr)
         (fragment_limit : Z) (w : world),
    poll (set_is_closed s b) handler clientd fragment_limit w =
    match poll s handler clientd fragment_limit w with
    | Ok out =>
        Ok (mk_poll_outcome (poll_return out)
              (set_is_closed (poll_subscription out) b)
              (poll_world out) (poll_starting_index out) (poll_events out))
    | Fault => Fault
    end.
Proof.
  intros s b handler clientd limit w.
  unfold poll, aeron_subscription_poll.
  change (chain (set_is_closed s b)) with (chain s).
  destruct (chain s) as [|image_list rest]; [reflexivity|].
  change (round_robin_index (set_is_closed s b)) with (round_robin_index s).
  destruct (round_robin_index s >=? length image_list); cbv beta iota zeta.
  - destruct (poll_loop aeron_image_poll handler clientd _ _ _ _ _ _)
      as [[[f1 w1] evs1]|]; [|reflexivity].
    cbn [bind].
    destruct (poll_loop aeron_image_poll handler clientd _ _ _ _ _ _)
      as [[[f2 w2] evs2]|]; [|reflexivity].
    cbn. destruct (change_number image_list >? _); reflexivity.
  - destruct (poll_loop aeron_image_poll handler clientd _ _ _ _ _ _)
      as [[[f1 w1] evs1]|]; [|reflexivity].
    cbn [bind].
    destruct (poll_loop aeron_image_poll handler clientd _ _ _ _ _ _)
      as [[[f2 w2] evs2]|]; [|reflexivity].
    cbn. destruct (change_number image_list >? _); reflexivity.
Qed.

(** C10: a poll that finds the stored [round_robin_index] at or beyond the
    length of the list it read starts at index 0 and leaves the stored index
    at 0, the chain as it was; so whatever poll comes next on that list
    starts at index 0 again.  With a positive limit and a list that has
    images, both polls call [aeron_image_poll] on slot 0 first. *)
Theorem poll_reset_leaves_cursor_at_zero :
  forall (s : aeron_subscription_t) (image_list : aeron_image_list_t)
         (rest : list aeron_image_list_t) (handler clientd : ptr)
         (fragment_limit : Z) (w : world),
    chain s = image_list :: rest ->
    round_robin_index s >= length image_list ->
    exists out,
      poll s handler clientd fragment_limit w = Ok out /\
      poll_starting_index out = 0 /\
      round_robin_index (poll_subscription out) = 0 /\
      chain (poll_subscription out) = chain s /\
      (0 < fragment_limit -> array image_list <> [] ->
       exists ev evs, poll_events out = ev :: evs /\ ev_index ev = 0%nat) /\
      forall (handler' clientd' : ptr) (fragment_limit' : Z) (w' : world),
      exists out',
        poll (poll_subscription out) handler' clientd' fragment_limit' w'
          = Ok out' /\
        poll_starting_index out' = 0 /\
        (0 < fragment_limit' -> array image_list <> [] ->
         exists ev evs, poll_events out' = ev :: evs /\ ev_index ev = 0%nat).
Proof.
  intros s image_list rest handler clientd limit w Hchain Hge.
  destruct (poll_unfold aeron_image_poll handler clientd s limit w Hchain)
    as (f1 & w1 & evs1 & f2 & w2 & evs2 & out & _ & _ & Hpoll & _ & _
        & Hstart & _ & Hcf & Hrr & _).
  assert (Hs0 : starting_index_for s image_list = 0).
  { unfold starting_index_for.
    destruct (Z.geb_spec (round_robin_index s) (length image_list));
      [reflexivity|lia]. }
  assert (Hr0 : round_robin_index_after s image_list = 0).
  { unfold round_robin_index_after.
    destruct (Z.geb_spec (round_robin_index s) (length image_list));
      [reflexivity|lia]. }
  assert (Hchain' : chain (poll_subscription out) = image_list :: rest).
  { unfold chain in *. rewrite Hcf. exact Hchain. }
  exists out. split; [exact Hpoll|].
  split; [congruence|]. split; [congruence|]. split; [congruence|]. split.
  - intros Hlimit Hne.
    destruct (poll_first_event s handler clientd w Hchain Hne Hlimit Hpoll)
      as (ev & evs & Hev & Hidx).
    exists ev, evs. split; [exact Hev|]. rewrite Hidx, Hstart, Hs0.
    reflexivity.
  - intros handler' clientd' limit' w'.
    destruct (poll_unfold aeron_image_poll handler' clientd'
                (poll_subscription out) limit' w' Hchain')
      as (g1 & v1 & e1 & g2 & v2 & e2 & out' & _ & _ & Hpoll' & _ & _
          & Hstart' & _).
    assert (Hs0' : starting_index_for (poll_subscription out) image_list = 0).
    { unfold starting_index_for. rewrite Hrr, Hr0.
      destruct (0 >=? length image_list); reflexivity. }
    exists out'. split; [exact Hpoll'|]. split; [congruence|].
    intros Hlimit Hne.
    destruct (poll_first_event (poll_subscription out) handler' clientd' w'
                Hchain' Hne Hlimit Hpoll')
      as (ev & evs & Hev & Hidx).
    exists ev, evs. split; [exact Hev|]. rewrite Hidx, Hstart', Hs0'.
    reflexivity.
Qed.

(** *** Round robin *)

(** While the stored index stays below the length of the list, each call
    starts one slot further: [m] calls from a stored index [c] with
    [c + m <= n] start at [c], [c + 1], ... and leave the index at
    [c + m]. *)
Lemma poll_repeat_advances (image_list : aeron_image_list_t)
    (rest : list aeron_image_list_t) (handler clientd : ptr) (limit : Z) :
  0 < limit ->
  length image_list <= SIZE_MAX ->
  forall (m c : nat) (s : aeron_subscription_t) (w : world),
    chain s = image_list :: rest ->
    round_robin_index s = Z.of_nat c ->
    (c + m <= List.length (array image_list))%nat ->
    exists outs,
      poll_repeat aeron_image_poll m s handler clientd limit w = Ok outs /\
      List.length outs = m /\
      forall k, (k < m)%nat ->
        exists out,
          nth_error outs k = Some out /\
          poll_starting_index out = Z.of_nat (c + k) /\
          (exists ev evs,
              poll_events out = ev :: evs /\ ev_index ev = (c + k)%nat) /\
          round_robin_index (poll_subscription out) = Z.of_nat (c + k) + 1.
Proof.
  intros Hlimit Hsize. induction m as [|m IH]; intros c s w Hchain Hrr Hlen.
  - exists []. repeat split. intros k Hk. lia.
  - destruct (poll_unfold aeron_image_poll handler clientd s limit w Hchain)
      as (f1 & w1 & evs1 & f2 & w2 & evs2 & out & _ & _ & Hpoll & _ & _
          & Hstart & _ & Hcf & Hrr' & _).
    assert (Hlt : round_robin_index s < length image_list)
      by (unfold length; lia).
    assert (Hs : starting_index_for s image_list = Z.of_nat c).
    { unfold starting_index_for.
      destruct (Z.geb_spec (round_robin_index s) (length image_list)); lia. }
    assert (Hr : round_robin_index_after s image_list = Z.of_nat c + 1).
    { unfold round_robin_index_after, size_wrap.
      destruct (Z.geb_spec (round_robin_index s) (length image_list));
        [lia|].
      rewrite Hrr. apply Z.mod_small. unfold SIZE_MAX in Hsize. lia. }
    assert (Hne : array image_list <> []).
    { intros E. rewrite E in Hlen. simpl in Hlen. lia. }
    assert (Hchain' : chain (poll_subscription out) = image_list :: rest).
    { unfold chain in *. rewrite Hcf. exact Hchain. }
    destruct (IH (S c) (poll_subscription out) (poll_world out) Hchain')
      as (outs & Houts & Hcount & Heach); [rewrite Hrr', Hr; lia|lia|].
    exists (out :: outs). split; [|split].
    + simpl. rewrite Hpoll. cbn [bind]. rewrite Houts. reflexivity.
    + simpl. congruence.
    + intros [|k] Hk.
      * exists out. rewrite Nat.add_0_r. split; [reflexivity|].
        split; [congruence|]. split; [|congruence].
        destruct (poll_first_event s handler clientd w Hchain Hne Hlimit
                    Hpoll) as (ev & evs & Hev & Hidx).
        exists ev, evs. split; [exact Hev|].
        rewrite Hidx, Hstart, Hs. apply Nat2Z.id.
      * destruct (Heach k ltac:(lia)) as (out' & Hnth & Hrest).
        exists out'. split; [exact Hnth|].
        replace (c + S k)%nat with (S c + k)%nat by lia. exact Hrest.
Qed.

(** C4 as the code has it: on a fixed list of [n >= 1] images, with a
    positive limit and nothing installed in between, [n] calls in a row
    that begin with the stored index at 0 (as it is after creation and after
    a reset) all return, and call number [k] (from 0) starts at index [k],
    polls slot [k] and leaves the stored index at [k + 1]: the starting
    index advances by one per call and every slot is polled at least once.
    The step back to 0 is the reset of the call that finds the index at
    [n]. *)
Theorem poll_round_robin_from_zero :
  forall (s : aeron_subscription_t) (image_list : aeron_image_list_t)
         (rest : list aeron_image_list_t) (handler clientd : ptr)
         (fragment_limit : Z) (w : world),
    let n := List.length (array image_list) in
    chain s = image_list :: rest ->
    (1 <= n)%nat ->
    length image_list <= SIZE_MAX ->
    round_robin_index s = 0 ->
    0 < fragment_limit ->
    exists outs,
      poll_repeat aeron_image_poll n s handler clientd fragment_limit w
        = Ok outs /\
      List.length outs = n /\
      forall k, (k < n)%nat ->
        exists out,
          nth_error outs k = Some out /\
          poll_starting_index out = Z.of_nat k /\
          (exists ev evs,
              poll_events out = ev :: evs /\ ev_index ev = k) /\
          round_robin_index (poll_subscription out) = Z.of_nat k + 1.
Proof.
  intros s image_list rest handler clientd limit w n Hchain Hn Hsize Hrr
         Hlimit.
  exact (@poll_repeat_advances image_list rest handler clientd limit Hlimit
           Hsize n 0%nat s w Hchain Hrr (le_n n)).
Qed.

End PollProperties.

(** ** The theorems at concrete subscriptions *)

(** Two installations after creation, no poll: a state the subscription can
    be in, with the change numbers 0 and 1 given. *)
Lemma installed_twice_history :
  history Sample.eager_image_poll Sample.installed_twice [1; 0].
Proof.
  apply (history_new_image_list (s := Sample.installed_once) (vs := [0])).
  apply (history_new_image_list (s := Sample.created) (vs := [])).
  apply (@history_create unit Sample.eager_image_poll
           AllocOk 100 "aeron:ipc"%string 1001 7 200 300).
  reflexivity.
Defined.

(** Scenario D of the specification: v0 and v1 installed, no poll yet; the
    pruning pass frees neither. *)
Lemma prune_reclamation_safety_witness :
  snd (aeron_client_conductor_subscription_prune_image_lists
         Sample.installed_twice) = [] /\
  chain (fst (aeron_client_conductor_subscription_prune_image_lists
                Sample.installed_twice))
  = chain Sample.installed_twice.
Proof.
  destruct (prune_reclamation_safety Sample.eager_image_poll
              Sample.installed_twice) as (_ & _ & Hinitial).
  apply (Hinitial [1; 0] installed_twice_history).
  - unfold INT32_MAX. simpl. lia.
  - reflexivity.
Defined.

Lemma change_numbers_strictly_increase_witness :
  (forall image_list,
      Forall (fun v =>
                v < installed_change_number
                      (aeron_client_conductor_subscription_new_image_list
                         Sample.installed_twice image_list))
             [1; 0]) /\
  StronglySorted Z.gt [1; 0] /\
  NoDup [1; 0].
Proof.
  apply (change_numbers_strictly_increase installed_twice_history).
  unfold before_wrap, INT32_MAX. simpl. lia.
Defined.

Lemma chain_ordering_invariant_witness :
  chain_ordered Sample.installed_twice /\
  chain_ordered
    (aeron_client_conductor_subscription_new_image_list
       Sample.installed_twice Sample.one_image) /\
  chain_ordered
    (fst (aeron_client_conductor_subscription_prune_image_lists
            Sample.installed_twice)).
Proof.
  destruct (chain_ordering_invariant Sample.eager_image_poll)
    as (Hreach & Hinstall & Hprune).
  assert (H : chain_ordered Sample.installed_twice).
  { apply (Hreach Sample.installed_twice [1; 0] installed_twice_history).
    unfold before_wrap, INT32_MAX. simpl. lia. }
  split; [exact H|]. split.
  - apply Hinstall; [|exact H].
    change (next_change_number (conductor_fields Sample.installed_twice))
      with 2.
    unfold INT32_MIN, INT32_MAX. lia.
  - apply Hprune, H.
Defined.

Lemma poll_bounded_work_witness :
  exists out,
    aeron_subscription_poll Sample.slow_image_poll Sample.installed_once
      0 0 3 tt = Ok out /\
    (List.length (poll_events out) <= 2)%nat /\
    NoDup (map ev_index (poll_events out)) /\
    Forall (fun ev => nth_error [11; 12] (ev_index ev) = Some (ev_image ev))
           (poll_events out) /\
    0 <= poll_return out <= 3.
Proof.
  apply (@poll_bounded_work unit Sample.slow_image_poll
           Sample.installed_once (mk_image_list 0 [11; 12]) [] 0 0 3 tt).
  - reflexivity.
  - lia.
  - intros image l w0 Hl. unfold Sample.slow_image_poll. simpl. lia.
Defined.


(** Scenario C of the specification: the cursor points past the list. *)
Lemma poll_reset_leaves_cursor_at_zero_witness :
  exists out,
    aeron_subscription_poll Sample.eager_image_poll
      (set_round_robin_index Sample.installed_twice 2) 0 0 10 tt = Ok out /\
    poll_starting_index out = 0 /\
    round_robin_index (poll_subscription out) = 0.
Proof.
  destruct (@poll_reset_leaves_cursor_at_zero unit Sample.eager_image_poll
              (set_round_robin_index Sample.installed_twice 2)
              (mk_image_list 1 [11]) [mk_image_list 0 [11; 12]] 0 0 10 tt)
    as (out & Hpoll & Hstart & Hrr & _).
  - reflexivity.
  - unfold length. simpl. lia.
  - exists out. auto.
Defined.

Lemma poll_round_robin_from_zero_witness :
  exists outs,
    poll_repeat Sample.eager_image_poll 2 Sample.installed_once 0 0 10 tt
      = Ok outs /\
    List.length outs = 2%nat /\
    forall k, (k < 2)%nat ->
      exists out,
        nth_error outs k = Some out /\
        poll_starting_index out = Z.of_nat k /\
        (exists ev evs, poll_events out = ev :: evs /\ ev_index ev = k) /\
        round_robin_index (poll_subscription out) = Z.of_nat k + 1.
Proof.
  apply (@poll_round_robin_from_zero unit Sample.eager_image_poll
           Sample.installed_once (mk_image_list 0 [11; 12]) [] 0 0 10 tt).
  - reflexivity.
  - simpl. lia.
  - unfold length, SIZE_MAX. simpl. lia.
  - reflexivity.
  - lia.
Defined.

(** Scenario A of the specification: three images yielding 2, 0 and 1
    fragments; the poll returns 3 and the next one starts at index 1. *)
Lemma scenario_A_poll_three_images :
  exists out out',
    aeron_subscription_poll Sample.scenario_image_poll
      (aeron_client_conductor_subscription_new_image_list Sample.created
         Sample.three_images) 0 0 10 tt = Ok out /\
    poll_return out = 3 /\
    map ev_index (poll_events out) = [0; 1; 2]%nat /\
    aeron_subscription_poll Sample.scenario_image_poll
      (poll_subscription out) 0 0 10 tt = Ok out' /\
    poll_starting_index out' = 1.
Proof.
  do 2 eexists. split; [vm_compute; reflexivity|].
  split; [reflexivity|]. split; [reflexivity|].
  split; [vm_compute; reflexivity|reflexivity].
Qed.

(** Scenarios B and D of the specification: after v0 and v1 are installed a
    poll reads v1 and publishes 1; the pruning pass that follows frees v0 and
    keeps v1. *)
Lemma scenario_B_prune_after_poll :
  exists out,
    aeron_subscription_poll Sample.eager_image_poll Sample.installed_twice
      0 0 10 tt = Ok out /\
    last_image_list_change_number (poll_subscription out) = 1 /\
    map change_number
      (snd (aeron_client_conductor_subscription_prune_image_lists
              (poll_subscription out))) = [0] /\
    map change_number
      (chain (fst (aeron_client_conductor_subscription_prune_image_lists
                     (poll_subscription out)))) = [1].
Proof.
  eexists. split; [vm_compute; reflexivity|]. repeat split.
Qed.

(** ** Where the code departs from the specification *)

(** C4 does not hold as stated.  On a list of two images that hand over all
    they are asked for, the third and the fourth of four calls in a row are
    two consecutive calls that both start at index 0, and neither polls slot
    1: the call that finds the stored index at 2 stores 0, not 1. *)
Lemma round_robin_counterexample :
  exists outs,
    poll_repeat Sample.eager_image_poll 4 Sample.installed_once 0 0 10 tt
      = Ok outs /\
    map (@poll_starting_index unit) outs = [0; 1; 0; 0] /\
    map (fun out => map ev_index (poll_events out)) outs
      = [[0]; [1]; [0]; [0]]%nat /\
    forall out, In out (skipn 2 outs) ->
      poll_starting_index out = 0 /\
      ~ In 1%nat (map ev_index (poll_events out)).
Proof.
  eexists. split; [vm_compute; reflexivity|].
  split; [reflexivity|]. split; [reflexivity|].
  simpl. intros out [<-|[<-|[]]]; simpl; split; try reflexivity;
    intros [H|[]]; discriminate.
Qed.

(** *** The counter at its top value *)

Lemma install_repeat_succ (n : N) (s : aeron_subscription_t) :
  install_repeat (N.succ n) s
  = aeron_client_conductor_subscription_new_image_list (install_repeat n s)
      Sample.one_image.
Proof.
  unfold install_repeat. apply N.iter_succ.
Qed.

(** Up to 2^31 - 1 installations on a new subscription, never polled: the
    counter is the number of installations. *)
Lemma install_repeat_history (n : N) :
  Z.of_N n <= INT32_MAX ->
  exists vs,
    history Sample.eager_image_poll (install_repeat n Sample.created) vs /\
    Z.of_nat (List.length vs) = Z.of_N n /\
    next_change_number (conductor_fields (install_repeat n Sample.created))
      = Z.of_N n /\
    last_image_list_change_number (install_repeat n Sample.created) = -1.
Proof.
  induction n as [|n IH] using N.peano_ind; intros Hn.
  - exists []. split; [|repeat split].
    apply (@history_create unit Sample.eager_image_poll
             AllocOk 100 "aeron:ipc"%string 1001 7 200 300).
    reflexivity.
  - rewrite N2Z.inj_succ in Hn.
    destruct IH as (vs & Hh & Hlen & Hnext & Hlast); [lia|].
    rewrite install_repeat_succ.
    set (s := install_repeat n Sample.created) in *. clearbody s.
    exists (installed_change_number
              (aeron_client_conductor_subscription_new_image_list s
                 Sample.one_image) :: vs).
    split; [apply history_new_image_list; exact Hh|].
    rewrite N2Z.inj_succ. cbn [List.length]. split; [lia|].
    split; [|exact Hlast].
    unfold aeron_client_conductor_subscription_new_image_list,
      set_conductor_fields. cbn [conductor_fields next_change_number].
    rewrite Hnext. apply int32_wrap_small.
    unfold INT32_MIN, INT32_MAX in *. lia.
Qed.

(** C5 does not hold as stated.  After 2^31 installations the lists carry
    the change numbers 0 to 2147483647 and the counter has wrapped: the list
    installed next is stamped -2147483648, below all of them. *)
Lemma change_numbers_wrap_counterexample :
  exists vs,
    history Sample.eager_image_poll
      (install_repeat 2147483648 Sample.created) vs /\
    In 2147483647 vs /\
    installed_change_number
      (aeron_client_conductor_subscription_new_image_list
         (install_repeat 2147483648 Sample.created) Sample.one_image)
    = -2147483648.
Proof.
  replace 2147483648%N with (N.succ 2147483647) by reflexivity.
  rewrite install_repeat_succ.
  destruct (install_repeat_history 2147483647) as (vs & Hh & _ & Hnext & _);
    [unfold INT32_MAX; simpl; lia|].
  revert Hh Hnext. generalize (install_repeat 2147483647 Sample.created).
  intros s Hh Hnext.
  exists (installed_change_number
            (aeron_client_conductor_subscription_new_image_list s
               Sample.one_image) :: vs).
  split; [apply history_new_image_list; exact Hh|].
  unfold installed_change_number, chain,
    aeron_client_conductor_subscription_new_image_list, set_conductor_fields.
  cbn [conductor_fields next_change_number image_lists_head change_number].
  rewrite Hnext. split; [left; reflexivity|reflexivity].
Qed.

(** C9 does not hold as stated.  After 2^31 installations the head of the
    chain carries 2147483647 while [next_change_number] has wrapped to
    -2147483648: the change numbers of the chain are not below it. *)
Lemma chain_ordering_wrap_counterexample :
  reachable Sample.eager_image_poll
    (install_repeat 2147483648 Sample.created) /\
  next_change_number
    (conductor_fields (install_repeat 2147483648 Sample.created))
  = -2147483648 /\
  (exists head rest,
      chain (install_repeat 2147483648 Sample.created) = head :: rest /\
      change_number head = 2147483647) /\
  ~ chain_ordered (install_repeat 2147483648 Sample.created).
Proof.
  replace 2147483648%N with (N.succ 2147483647) by reflexivity.
  rewrite install_repeat_succ.
  destruct (install_repeat_history 2147483647) as (vs & Hh & _ & Hnext & _);
    [unfold INT32_MAX; simpl; lia|].
  revert Hh Hnext. generalize (install_repeat 2147483647 Sample.created).
  intros s Hh Hnext.
  split; [|split; [|split]].
  - eexists. apply history_new_image_list. exact Hh.
  - unfold aeron_client_conductor_subscription_new_image_list,
      set_conductor_fields.
    cbn [conductor_fields next_change_number]. rewrite Hnext. reflexivity.
  - eexists _, _. unfold chain,
      aeron_client_conductor_subscription_new_image_list, set_conductor_fields.
    cbn [conductor_fields image_lists_head]. split; [reflexivity|].
    cbn [change_number]. exact Hnext.
  - intros [_ Hbound]. revert Hbound. unfold chain,
      aeron_client_conductor_subscription_new_image_list, set_conductor_fields.
    cbn [conductor_fields image_lists_head next_change_number].
    rewrite Hnext. intros Hbound. inversion Hbound as [|a l Hhead _]; subst.
    cbn [change_number] in Hhead. revert Hhead. cbv. intros H. discriminate.
Qed.

(** C2 does not hold as stated.  After 2^31 + 1 installations and no poll,
    [last_image_list_change_number] still holds -1 and the head of the chain
    carries -2147483648: the pruning pass frees it. *)
Lemma prune_after_wrap_counterexample :
  reachable Sample.eager_image_poll
    (install_repeat 2147483649 Sample.created) /\
  last_image_list_change_number (install_repeat 2147483649 Sample.created)
  = -1 /\
  exists head rest,
    chain (install_repeat 2147483649 Sample.created) = head :: rest /\
    change_number head = -2147483648 /\
    In head
       (snd (aeron_client_conductor_subscription_prune_image_lists
               (install_repeat 2147483649 Sample.created))).
Proof.
  replace 2147483649%N with (N.succ (N.succ 2147483647)) by reflexivity.
  rewrite !install_repeat_succ.
  destruct (install_repeat_history 2147483647)
    as (vs & Hh & _ & Hnext & Hlast); [unfold INT32_MAX; simpl; lia|].
  revert Hh Hnext Hlast. generalize (install_repeat 2147483647 Sample.created).
  intros s Hh Hnext Hlast.
  split; [|split].
  - eexists. apply history_new_image_list, history_new_image_list. exact Hh.
  - exact Hlast.
  - rewrite prune_freed.
    unfold chain, aeron_client_conductor_subscription_new_image_list,
      set_conductor_fields.
    cbn [conductor_fields image_lists_head next_change_number
         last_image_list_change_number].
    rewrite Hnext, Hlast.
    eexists _, _. split; [reflexivity|]. split; [reflexivity|].
    left. reflexivity.
Qed.

(** C8 does not hold as stated.  With [is_closed] set, a poll still polls the
    image, returns what it reported, moves the cursor and publishes the
    change number. *)
Lemma poll_on_closed_counterexample :
  is_closed Sample.closed_subscription = true /\
  exists out,
    aeron_subscription_poll Sample.eager_image_poll
      Sample.closed_subscription 0 0 10 tt = Ok out /\
    poll_return out = 10 /\
    map ev_index (poll_events out) = [0%nat] /\
    round_robin_index Sample.closed_subscription = 0 /\
    round_robin_index (poll_subscription out) = 1 /\
    last_image_list_change_number Sample.closed_subscription = -1 /\
    last_image_list_change_number (poll_subscription out) = 0.
Proof.
  split; [reflexivity|].
  eexists. split; [vm_compute; reflexivity|].
  repeat split.
Qed.

(** * Further properties of the code *)

(** ** Pruning, on any subscription *)

Lemma filter_filter_same (A : Type) (f : A -> bool) (l : list A) :
  filter f (filter f l) = filter f l.
Proof.
  induction l as [|a l IH]; simpl; [reflexivity|].
  destruct (f a) eqn:E; simpl; [rewrite E, IH; reflexivity|exact IH].
Qed.

Lemma filter_filter_negb (A : Type) (f : A -> bool) (l : list A) :
  filter (fun x => negb (f x)) (filter f l) = [].
Proof.
  induction l as [|a l IH]; simpl; [reflexivity|].
  destruct (f a) eqn:E; simpl; [rewrite E; exact IH|exact IH].
Qed.

Lemma filter_split_permutation (A : Type) (f : A -> bool) (l : list A) :
  Permutation l (filter f l ++ filter (fun x => negb (f x)) l).
Proof.
  induction l as [|a l IH]; simpl; [constructor|].
  destruct (f a); simpl.
  - constructor. exact IH.
  - apply Permutation_cons_app. exact IH.
Qed.

(** A chain whose change numbers fall strictly splits at the first node
    below the bound: the kept nodes are a prefix, the freed ones the rest. *)
Lemma filter_split_sorted (last : Z) (l : list aeron_image_list_t) :
  StronglySorted newer l ->
  l = filter (fun node => change_number node >=? last) l
      ++ filter (fun node => negb (change_number node >=? last)) l.
Proof.
  induction 1 as [|node rest Hsorted IH Hnode]; simpl; [reflexivity|].
  destruct (Z.geb_spec (change_number node) last) as [Hge|Hlt]; simpl.
  - f_equal. exact IH.
  - assert (Hall : Forall (fun x => negb (change_number x >=? last) = true)
                     rest).
    { eapply Forall_impl; [|exact Hnode]. intros x Hx. unfold newer in Hx.
      destruct (Z.geb_spec (change_number x) last); [lia|reflexivity]. }
    rewrite (filter_all _ Hall).
    replace (filter (fun x => change_number x >=? last) rest) with
      (@nil aeron_image_list_t); [reflexivity|].
    clear -Hall. induction Hall as [|x l Hx _ IH]; simpl; [reflexivity|].
    destruct (change_number x >=? last); [discriminate|exact IH].
Qed.

(** X1: a second pruning pass right after a first one frees nothing and
    leaves the subscription as the first pass left it. *)
Theorem prune_idempotent :
  forall s : aeron_subscription_t,
    let once := aeron_client_conductor_subscription_prune_image_lists s in
    let twice :=
      aeron_client_conductor_subscription_prune_image_lists (fst once) in
    snd twice = [] /\ fst twice = fst once.
Proof.
  intros s once twice. unfold twice, once.
  unfold aeron_client_conductor_subscription_prune_image_lists.
  rewrite (prune_loop_filter _ (chain s)). cbn [fst snd].
  rewrite prune_loop_filter. cbn [fst snd].
  unfold chain, set_conductor_fields. simpl.
  rewrite filter_filter_negb, filter_filter_same. split; reflexivity.
Qed.

(** X2: a pruning pass only unlinks.  The nodes it keeps together with the
    nodes it frees are the nodes of the chain, each once, and nothing of the
    subscription but the chain changes. *)
Theorem prune_loses_no_node :
  forall s : aeron_subscription_t,
    let pruned := aeron_client_conductor_subscription_prune_image_lists s in
    Permutation (chain s) (chain (fst pruned) ++ snd pruned) /\
    set_conductor_fields (fst pruned) (conductor_fields s) = s /\
    next_change_number (conductor_fields (fst pruned))
      = next_change_number (conductor_fields s).
Proof.
  intros s pruned. unfold pruned.
  destruct (prune_fields s) as (Hchain & Hnext & _).
  rewrite Hchain, prune_freed. split; [apply filter_split_permutation|].
  split; [|exact Hnext].
  unfold aeron_client_conductor_subscription_prune_image_lists.
  rewrite prune_loop_filter. destruct s as [[head next] cd ch rg st av un l r c].
  reflexivity.
Qed.

(** X3: on a chain whose change numbers fall strictly from the head on, a
    pruning pass cuts the chain in two: it keeps a front part and frees all
    that follows, in chain order. *)
Theorem prune_frees_tail :
  forall s : aeron_subscription_t,
    chain_ordered s ->
    let pruned := aeron_client_conductor_subscription_prune_image_lists s in
    chain s = chain (fst pruned) ++ snd pruned.
Proof.
  intros s [Hsorted _] pruned. unfold pruned.
  destruct (prune_fields s) as (Hchain & _).
  rewrite Hchain, prune_freed. apply filter_split_sorted, Hsorted.
Qed.

(** ** What holds of every subscription since its creation *)

Section Reachable.

Variable world : Type.
Variable aeron_image_poll : ptr -> ptr -> ptr -> Z -> world -> Z * world.

Let poll := aeron_subscription_poll aeron_image_poll.

Lemma rev_seq_S (k : nat) :
  rev (seq 0 (S k)) = k :: rev (seq 0 k).
Proof.
  rewrite seq_S, rev_app_distr. reflexivity.
Qed.

(** The counter counts the installations. *)
Lemma history_counter (s : aeron_subscription_t) (vs : list Z) :
  history aeron_image_poll s vs ->
  before_wrap vs ->
  next_change_number (conductor_fields s) = Z.of_nat (List.length vs).
Proof.
  intros Hh Hwrap. apply (history_invariant Hh Hwrap).
Qed.

(** X4: until the counter wraps, change numbers are handed out
    consecutively from 0.  After [k < 2^31] installations, whatever pruning
    passes and polls came in between, the lists were given [0], [1], ...,
    [k - 1] in that order and [next_change_number] is [k]. *)
Theorem change_numbers_consecutive :
  forall (s : aeron_subscription_t) (vs : list Z),
    history aeron_image_poll s vs ->
    before_wrap vs ->
    next_change_number (conductor_fields s) = Z.of_nat (List.length vs) /\
    vs = map Z.of_nat (rev (seq 0 (List.length vs))).
Proof.
  intros s vs Hh Hwrap. split; [exact (history_counter Hh Hwrap)|].
  induction Hh as [alloc cd ch st rg av un s Hs
                  | s vs image_list Hh IH
                  | s vs Hh IH
                  | s vs handler clientd limit w out Hh IH Hpoll];
    try (apply IH; exact Hwrap).
  - reflexivity.
  - apply before_wrap_tail in Hwrap. destruct Hwrap as [Hwrap _].
    unfold installed_change_number, chain. cbn [List.length].
    rewrite rev_seq_S. simpl. rewrite (history_counter Hh Hwrap).
    f_equal. exact (IH Hwrap).
Qed.

(** The head of the chain is the list installed last, and the reader has
    published nothing beyond it. *)
Lemma history_head (s : aeron_subscription_t) (vs : list Z) :
  history aeron_image_poll s vs ->
  before_wrap vs ->
  match vs with
  | [] => chain s = [] /\ last_image_list_change_number s = -1
  | v :: _ =>
      exists head rest,
        chain s = head :: rest /\
        change_number head = v /\
        v = next_change_number (conductor_fields s) - 1 /\
        -1 <= last_image_list_change_number s <= v
  end.
Proof.
  induction 1 as [alloc cd ch st rg av un s Hs
                 | s vs image_list Hh IH
                 | s vs Hh IH
                 | s vs handler clientd limit w out Hh IH Hpoll];
    intros Hwrap.
  - destruct alloc; simpl in Hs; [|discriminate].
    injection Hs as <-. split; reflexivity.
  - apply before_wrap_tail in Hwrap. destruct Hwrap as [Hwrap Hlt].
    pose proof (history_counter Hh Hwrap) as Hnext. specialize (IH Hwrap).
    unfold installed_change_number, chain. simpl.
    rewrite int32_wrap_small by (unfold INT32_MIN, INT32_MAX in *; lia).
    eexists _, _. split; [reflexivity|]. split; [reflexivity|].
    split; [lia|]. destruct vs as [|v vs].
    + destruct IH as [_ ->]. simpl in Hnext. lia.
    + destruct IH as (head & rest & _ & _ & Hv & Hlast). lia.
  - specialize (IH Hwrap).
    destruct (prune_fields s) as (Hchain & Hnext & Hlast & _).
    rewrite Hchain, Hlast, Hnext. destruct vs as [|v vs].
    + destruct IH as [-> ->]. split; reflexivity.
    + destruct IH as (head & rest & -> & Hv & Hn & Hbound).
      simpl. destruct (Z.geb_spec (change_number head)
                         (last_image_list_change_number s)); [|lia].
      eexists _, _. split; [reflexivity|]. repeat split; assumption || lia.
  - specialize (IH Hwrap).
    destruct (poll_ok_inv _ _ _ _ _ _ Hpoll)
      as (il & rest & Hchain & Hcf & _ & Hlast & _).
    unfold chain in *. rewrite Hcf, Hlast. destruct vs as [|v vs].
    + destruct IH as [IH _]. congruence.
    + destruct IH as (head & rest' & Hc & Hv & Hn & Hbound).
      assert (head = il) by congruence. subst head.
      exists il, rest'. split; [exact Hc|]. split; [exact Hv|].
      split; [exact Hn|].
      unfold last_change_number_after.
      destruct (Z.gtb_spec (change_number il)
                  (last_image_list_change_number s)); lia.
Qed.

(** The reader's marker lies between -1 and the counter. *)
Lemma history_last_bound (s : aeron_subscription_t) (vs : list Z) :
  history aeron_image_poll s vs ->
  before_wrap vs ->
  -1 <= last_image_list_change_number s
     < next_change_number (conductor_fields s).
Proof.
  intros Hh Hwrap. pose proof (history_head Hh Hwrap) as Hhead.
  pose proof (history_counter Hh Hwrap) as Hnext.
  destruct vs as [|v vs].
  - destruct Hhead as [_ ->]. simpl in Hnext. lia.
  - destruct Hhead as (head & rest & _ & _ & Hv & Hlast). lia.
Qed.

(** X5: once an image list has been installed, and until the counter wraps
    (fewer than 2^31 installations), the chain is never empty.  Its head is
    the list installed last, carrying [next_change_number - 1]; no pruning
    pass unlinks it; and every poll returns instead of faulting. *)
Theorem installed_head_is_latest :
  forall (s : aeron_subscription_t) (v : Z) (vs : list Z),
    history aeron_image_poll s (v :: vs) ->
    before_wrap (v :: vs) ->
    exists head rest,
      chain s = head :: rest /\
      change_number head = v /\
      change_number head = next_change_number (conductor_fields s) - 1 /\
      (exists rest',
          chain (fst (aeron_client_conductor_subscription_prune_image_lists s))
          = head :: rest') /\
      forall (handler clientd : ptr) (fragment_limit : Z) (w : world),
      exists out, poll s handler clientd fragment_limit w = Ok out.
Proof.
  intros s v vs Hh Hwrap.
  destruct (history_head Hh Hwrap) as (head & rest & Hchain & Hv & Hn & Hlast).
  exists head, rest. split; [exact Hchain|]. split; [exact Hv|]. split; [|split].
  - lia.
  - destruct (prune_fields s) as (Hpruned & _). rewrite Hpruned, Hchain.
    simpl. destruct (Z.geb_spec (change_number head)
                       (last_image_list_change_number s)); [|lia].
    eexists. reflexivity.
  - intros handler clientd limit w.
    destruct (poll_unfold aeron_image_poll handler clientd s limit w Hchain)
      as (f1 & w1 & evs1 & f2 & w2 & evs2 & out & _ & _ & Hpoll & _).
    exists out. exact Hpoll.
Qed.

(** X6: until the counter wraps (fewer than 2^31 installations), the
    reader's marker stays within what was installed, and the list it names
    stays linked.  [last_image_list_change_number] is at least -1 and below
    [next_change_number]; unless it is still -1, the chain holds a list with
    that change number. *)
Theorem published_list_stays_linked :
  forall (s : aeron_subscription_t) (vs : list Z),
    history aeron_image_poll s vs ->
    before_wrap vs ->
    -1 <= last_image_list_change_number s
       < next_change_number (conductor_fields s) /\
    (last_image_list_change_number s = -1 \/
     exists node,
       In node (chain s) /\
       change_number node = last_image_list_change_number s).
Proof.
  intros s vs Hh Hwrap. split; [exact (history_last_bound Hh Hwrap)|].
  clear Hwrap.
  induction Hh as [alloc cd ch st rg av un s Hs
                  | s vs image_list Hh IH
                  | s vs Hh IH
                  | s vs handler clientd limit w out Hh IH Hpoll].
  - destruct alloc; simpl in Hs; [|discriminate].
    injection Hs as <-. left. reflexivity.
  - destruct IH as [IH|(node & Hin & Hcn)]; [left; exact IH|].
    right. exists node. split; [right; exact Hin|exact Hcn].
  - destruct (prune_fields s) as (Hchain & _ & Hlast & _).
    rewrite Hchain, Hlast.
    destruct IH as [IH|(node & Hin & Hcn)]; [left; exact IH|].
    right. exists node. split; [|exact Hcn].
    apply filter_In. split; [exact Hin|].
    destruct (Z.geb_spec (change_number node)
                (last_image_list_change_number s)); [reflexivity|lia].
  - destruct (poll_ok_inv _ _ _ _ _ _ Hpoll)
      as (il & rest & Hchain & Hcf & _ & Hlast & _).
    unfold chain in *. rewrite Hcf, Hlast. unfold last_change_number_after.
    destruct (change_number il >? last_image_list_change_number s).
    + right. exists il. rewrite Hchain. split; [left|]; reflexivity.
    + exact IH.
Qed.

(** X7: until the counter wraps (fewer than 2^31 installations), a pruning
    pass that follows a poll leaves exactly the list the poll read and frees
    every older one. *)
Theorem poll_then_prune_keeps_only_head :
  forall (s : aeron_subscription_t) (vs : list Z) (handler clientd : ptr)
         (fragment_limit : Z) (w : world) (out : poll_outcome world),
    history aeron_image_poll s vs ->
    before_wrap vs ->
    poll s handler clientd fragment_limit w = Ok out ->
    exists head rest,
      chain s = head :: rest /\
      chain (fst (aeron_client_conductor_subscription_prune_image_lists
                    (poll_subscription out))) = [head] /\
      snd (aeron_client_conductor_subscription_prune_image_lists
             (poll_subscription out)) = rest.
Proof.
  intros s vs handler clientd limit w out Hh Hwrap Hpoll.
  pose proof (@history_poll _ aeron_image_poll s vs handler clientd limit w
                out Hh Hpoll) as Hh'.
  destruct (poll_ok_inv _ _ _ _ _ _ Hpoll)
    as (il & rest & Hchain & Hcf & _ & _).
  assert (Hchain' : chain (poll_subscription out) = il :: rest)
    by (unfold chain in *; rewrite Hcf; exact Hchain).
  destruct vs as [|v vs].
  { destruct (history_head Hh Hwrap) as [Hnil _]. congruence. }
  destruct (history_head Hh Hwrap) as (head & rest0 & Hc & Hv & _ & Hlast).
  assert (head = il) by congruence. subst head.
  assert (Hlast' : last_image_list_change_number (poll_subscription out)
                   = change_number il).
  { destruct (poll_ok_inv _ _ _ _ _ _ Hpoll)
      as (il' & r' & Hc' & _ & _ & Hl & _).
    assert (il' = il) by congruence. subst il'. rewrite Hl.
    unfold last_change_number_after.
    destruct (Z.gtb_spec (change_number il)
                (last_image_list_change_number s)); lia. }
  destruct (history_invariant Hh' Hwrap) as (_ & [Hsorted _] & _).
  rewrite Hchain' in Hsorted. inversion Hsorted as [|a l Hl Hall]; subst.
  exists il, rest. split; [exact Hchain|].
  destruct (prune_fields (poll_subscription out)) as (Hpruned & _).
  rewrite Hpruned, prune_freed, Hchain', Hlast'. simpl.
  destruct (Z.geb_spec (change_number il) (change_number il)); [|lia].
  simpl.
  assert (Hbelow : Forall (fun x =>
                             negb (change_number x >=? change_number il) = true)
                     rest).
  { eapply Forall_impl; [|exact Hall]. intros x Hx. unfold newer in Hx.
    destruct (Z.geb_spec (change_number x) (change_number il));
      [lia|reflexivity]. }
  rewrite (filter_all _ Hbelow). split; [|reflexivity].
  f_equal. clear -Hbelow.
  induction Hbelow as [|x l Hx _ IH]; simpl; [reflexivity|].
  destruct (change_number x >=? change_number il); [discriminate|exact IH].
Qed.

(** X8: until the counter wraps (fewer than 2^31 installations),
    installation and pruning commute.  Since the list being installed is
    stamped above the reader's marker, pruning after the installation frees
    the same lists as pruning before it and leaves the same subscription. *)
Theorem new_image_list_prune_commute :
  forall (s : aeron_subscription_t) (vs : list Z)
         (image_list : aeron_image_list_t),
    history aeron_image_poll s vs ->
    before_wrap vs ->
    aeron_client_conductor_subscription_prune_image_lists
      (aeron_client_conductor_subscription_new_image_list s image_list)
    = (aeron_client_conductor_subscription_new_image_list
         (fst (aeron_client_conductor_subscription_prune_image_lists s))
         image_list,
       snd (aeron_client_conductor_subscription_prune_image_lists s)).
Proof.
  intros s vs image_list Hh Hwrap.
  pose proof (history_last_bound Hh Hwrap) as Hlast.
  unfold aeron_client_conductor_subscription_prune_image_lists,
    aeron_client_conductor_subscription_new_image_list.
  unfold chain. cbn -[int32_wrap].
  destruct (prune_loop (last_image_list_change_number s)
              (image_lists_head (conductor_fields s))) as [kept freed].
  destruct (Z.geb_spec (next_change_number (conductor_fields s))
              (last_image_list_change_number s)); [|lia].
  reflexivity.
Qed.

End Reachable.

(** ** More on one poll *)

Lemma firstn_seq_min (k a n : nat) :
  firstn k (seq a n) = seq a (Nat.min k n).
Proof.
  revert a n. induction k as [|k IH]; intros a [|n]; simpl; try reflexivity.
  f_equal. apply IH.
Qed.

Lemma app_eq_middle (A : Type) (l1 l2 pre post : list A) (x : A) :
  l1 ++ l2 = pre ++ x :: post ->
  (exists post1, l1 = pre ++ x :: post1 /\ post = post1 ++ l2) \/
  (exists pre2, pre = l1 ++ pre2 /\ l2 = pre2 ++ x :: post).
Proof.
  revert pre. induction l1 as [|a l1 IH]; intros pre H; simpl in H.
  - right. exists pre. split; [reflexivity|exact H].
  - destruct pre as [|b pre]; simpl in H; injection H as <- H'.
    + left. exists l1. split; [reflexivity|]. symmetry. exact H'.
    + destruct (IH pre H') as [(post1 & -> & ->)|(pre2 & -> & ->)].
      * left. exists post1. split; reflexivity.
      * right. exists pre2. split; reflexivity.
Qed.

Section PollFurther.

Variable world : Type.
Variable aeron_image_poll : ptr -> ptr -> ptr -> Z -> world -> Z * world.
Variables handler clientd : ptr.

Let loop := poll_loop aeron_image_poll handler clientd.
Let poll := aeron_subscription_poll aeron_image_poll.

(** Once the limit is reached the loop polls nothing more. *)
Lemma poll_loop_at_limit (n i : nat) (arr : list ptr) (limit f : Z) (w : world) :
  limit <= f ->
  loop n i arr limit f w = Ok (f, w, []).
Proof.
  intros Hle. unfold loop. destruct n as [|n]; simpl; [reflexivity|].
  destruct (Z.ltb_spec f limit); [lia|reflexivity].
Qed.

(** The loop ends either out of slots or at the limit. *)
Lemma poll_loop_stop (n i : nat) (arr : list ptr) (limit f : Z) (w : world)
    (f' : Z) (w' : world) (evs : list image_poll_event) :
  loop n i arr limit f w = Ok (f', w', evs) ->
  List.length evs = n \/ limit <= f'.
Proof.
  unfold loop. revert i f w f' w' evs.
  induction n as [|n IH]; intros i f w f' w' evs; simpl.
  - intros [= <- <- <-]. left. reflexivity.
  - destruct (Z.ltb_spec f limit).
    2:{ intros [= <- <- <-]. right. assumption. }
    destruct (nth_error arr i) as [image|]; [|discriminate].
    destruct (aeron_image_poll image handler clientd (limit - f) w)
      as [k w1].
    destruct (poll_loop aeron_image_poll handler clientd n (S i) arr limit
                (f + k) w1) as [[[f2 w2] evs2]|] eqn:Er; [|discriminate].
    simpl. intros [= <- <- <-].
    destruct (IH _ _ _ _ _ _ Er) as [Hlen|Hlim]; [left|right; exact Hlim].
    simpl. congruence.
Qed.

(** Each call of [aeron_image_poll] is given what is left of the limit,
    which is positive, and the event holds what the call reported. *)
Lemma poll_loop_limits (n i : nat) (arr : list ptr) (limit f : Z) (w : world)
    (f' : Z) (w' : world) (evs : list image_poll_event) :
  loop n i arr limit f w = Ok (f', w', evs) ->
  forall pre ev post,
    evs = pre ++ ev :: post ->
    ev_limit ev = limit - (f + total_fragments pre) /\
    0 < ev_limit ev /\
    exists w0,
      ev_fragments ev
      = fst (aeron_image_poll (ev_image ev) handler clientd (ev_limit ev) w0).
Proof.
  unfold loop. revert i f w f' w' evs.
  induction n as [|n IH]; intros i f w f' w' evs; simpl.
  - intros [= <- <- <-] [|a pre] ev post Hs; discriminate.
  - destruct (Z.ltb_spec f limit) as [Hlt|Hge].
    2:{ intros [= <- <- <-] [|a pre] ev post Hs; discriminate. }
    destruct (nth_error arr i) as [image|]; [|discriminate].
    destruct (aeron_image_poll image handler clientd (limit - f) w)
      as [k w1] eqn:Ek.
    destruct (poll_loop aeron_image_poll handler clientd n (S i) arr limit
                (f + k) w1) as [[[f2 w2] evs2]|] eqn:Er; [|discriminate].
    simpl. intros [= <- <- <-] [|a pre] ev post H; simpl in H.
    + injection H as <- _. simpl. split; [lia|]. split; [lia|].
      exists w. rewrite Ek. reflexivity.
    + injection H as <- H'.
      destruct (IH _ _ _ _ _ _ Er pre ev post H') as (Hl & Hpos & Hw).
      split; [|split; assumption].
      rewrite Hl. simpl. fold (total_fragments pre). lia.
Qed.

(** X9: with a fragment limit of 0 or less a poll calls no image and
    returns 0, the world untouched; it still moves the cursor and publishes
    the change number of the list as any poll does. *)
Theorem poll_without_budget :
  forall (s : aeron_subscription_t) (image_list : aeron_image_list_t)
         (rest : list aeron_image_list_t) (fragment_limit : Z) (w : world),
    chain s = image_list :: rest ->
    fragment_limit <= 0 ->
    exists out,
      poll s handler clientd fragment_limit w = Ok out /\
      poll_return out = 0 /\
      poll_events out = [] /\
      poll_world out = w /\
      round_robin_index (poll_subscription out)
        = round_robin_index_after s image_list /\
      last_image_list_change_number (poll_subscription out)
        = last_change_number_after s image_list.
Proof.
  intros s image_list rest limit w Hchain Hlimit.
  destruct (poll_unfold aeron_image_poll handler clientd s limit w Hchain)
    as (f1 & w1 & evs1 & f2 & w2 & evs2 & out & H1 & H2 & Hpoll & Hret & Hw
        & _ & Hevs & _ & Hrr & Hlast & _).
  fold loop in H1, H2.
  rewrite poll_loop_at_limit in H1 by lia. injection H1 as <- <- <-.
  rewrite poll_loop_at_limit in H2 by lia. injection H2 as <- <- <-.
  exists out. repeat split; assumption.
Qed.

(** X10: on an installed list with no images a poll returns 0 without
    calling anything, starts at index 0 and leaves the cursor at 0. *)
Theorem poll_empty_image_list :
  forall (s : aeron_subscription_t) (image_list : aeron_image_list_t)
         (rest : list aeron_image_list_t) (fragment_limit : Z) (w : world),
    chain s = image_list :: rest ->
    array image_list = [] ->
    0 <= round_robin_index s ->
    exists out,
      poll s handler clientd fragment_limit w = Ok out /\
      poll_return out = 0 /\
      poll_events out = [] /\
      poll_world out = w /\
      poll_starting_index out = 0 /\
      round_robin_index (poll_subscription out) = 0.
Proof.
  intros s image_list rest limit w Hchain Hempty Hrr0.
  destruct (poll_unfold aeron_image_poll handler clientd s limit w Hchain)
    as (f1 & w1 & evs1 & f2 & w2 & evs2 & out & H1 & H2 & Hpoll & Hret & Hw
        & Hstart & Hevs & _ & Hrr & _).
  assert (Hs : starting_index_for s image_list = 0).
  { unfold starting_index_for, length. rewrite Hempty. simpl.
    destruct (Z.geb_spec (round_robin_index s) 0); [reflexivity|lia]. }
  assert (Hr : round_robin_index_after s image_list = 0).
  { unfold round_robin_index_after, length. rewrite Hempty. simpl.
    destruct (Z.geb_spec (round_robin_index s) 0); [reflexivity|lia]. }
  rewrite Hs, Hempty in H1, H2. simpl in H1, H2.
  injection H1 as <- <- <-. injection H2 as <- <- <-.
  simpl in Hevs. exists out.
  split; [exact Hpoll|]. split; [exact Hret|]. split; [exact Hevs|].
  split; [exact Hw|]. split; congruence.
Qed.

(** X11: a poll goes through the slots in rotation order from its starting
    index: the slots it polls are the first so many of
    [start, ..., n - 1, 0, ..., start - 1].  If it returns less than the
    limit it has polled all of them, each once. *)
Theorem poll_rotation_order :
  forall (s : aeron_subscription_t) (image_list : aeron_image_list_t)
         (rest : list aeron_image_list_t) (fragment_limit : Z) (w : world)
         (out : poll_outcome world),
    chain s = image_list :: rest ->
    poll s handler clientd fragment_limit w = Ok out ->
    let n := List.length (array image_list) in
    let start := Z.to_nat (poll_starting_index out) in
    (exists k,
        (k <= n)%nat /\
        map ev_index (poll_events out) = firstn k (rotation start n)) /\
    (poll_return out < fragment_limit ->
     map ev_index (poll_events out) = rotation start n).
Proof.
  intros s image_list rest limit w out Hchain Hout n start.
  destruct (poll_unfold aeron_image_poll handler clientd s limit w Hchain)
    as (f1 & w1 & evs1 & f2 & w2 & evs2 & out' & H1 & H2 & Hpoll & Hret & _
        & Hstart & Hevs & _).
  unfold poll in Hout. rewrite Hpoll in Hout. injection Hout as <-.
  pose proof (starting_index_le s image_list) as Hle.
  unfold start, n. rewrite Hstart, Hevs, Hret, map_app.
  set (st := Z.to_nat (starting_index_for s image_list)) in *.
  set (len := List.length (array image_list)) in *.
  fold loop in H1, H2.
  pose proof (poll_loop_stop _ _ _ _ _ _ H1) as Hstop1.
  pose proof (poll_loop_stop _ _ _ _ _ _ H2) as Hstop2.
  pose proof H1 as E1. pose proof H2 as E2.
  apply poll_loop_events in E1 as (Hi1 & Hn1 & _ & _).
  apply poll_loop_events in E2 as (Hi2 & Hn2 & _ & _).
  rewrite Hi1, Hi2. unfold rotation. split.
  - destruct Hstop1 as [Hall|Hlim].
    + exists (len - st + List.length evs2)%nat. split; [lia|].
      rewrite firstn_app, length_seq, !firstn_seq_min, Hall.
      replace (Nat.min (len - st + List.length evs2) (len - st))
        with (len - st)%nat by lia.
      replace (Nat.min (len - st + List.length evs2 - (len - st)) st)
        with (List.length evs2) by lia.
      reflexivity.
    + rewrite poll_loop_at_limit in H2 by exact Hlim.
      injection H2 as _ _ <-. simpl. rewrite app_nil_r.
      exists (List.length evs1). split; [lia|].
      rewrite firstn_app, length_seq, !firstn_seq_min.
      replace (Nat.min (List.length evs1) (len - st))
        with (List.length evs1) by lia.
      replace (Nat.min (List.length evs1 - (len - st)) st) with 0%nat by lia.
      simpl. rewrite app_nil_r. reflexivity.
  - intros Hbelow.
    destruct Hstop2 as [Hall2|Hlim2]; [|lia].
    destruct Hstop1 as [Hall1|Hlim1].
    + rewrite Hall1, Hall2. reflexivity.
    + rewrite poll_loop_at_limit in H2 by exact Hlim1.
      injection H2 as <- _ _. lia.
Qed.

(** What a call of [aeron_image_poll] is given and what its event holds,
    in the arithmetic of [Z]. *)
Lemma poll_event_limit (s : aeron_subscription_t) (fragment_limit : Z)
    (w : world) (out : poll_outcome world)
    (pre post : list image_poll_event) (ev : image_poll_event) :
  poll s handler clientd fragment_limit w = Ok out ->
  poll_events out = pre ++ ev :: post ->
  ev_limit ev = fragment_limit - total_fragments pre /\
  0 < ev_limit ev /\
  exists w0,
    ev_fragments ev
    = fst (aeron_image_poll (ev_image ev) handler clientd (ev_limit ev) w0).
Proof.
  intros Hout Hsplit.
  destruct (chain s) as [|image_list rest] eqn:Hchain.
  { unfold poll, aeron_subscription_poll in Hout. rewrite Hchain in Hout.
    discriminate. }
  destruct (poll_unfold aeron_image_poll handler clientd s fragment_limit w
              Hchain)
    as (f1 & w1 & evs1 & f2 & w2 & evs2 & out' & H1 & H2 & Hpoll & _ & _
        & _ & Hevs & _).
  unfold poll in Hout. rewrite Hpoll in Hout. injection Hout as <-.
  rewrite Hevs in Hsplit. fold loop in H1, H2.
  apply app_eq_middle in Hsplit as [(post1 & Hl & _)|(pre2 & -> & Hr)].
  - destruct (poll_loop_limits _ _ _ _ _ _ H1 _ _ _ Hl) as (Hlim & Hpos & Hw).
    split; [|split; assumption]. lia.
  - destruct (poll_loop_limits _ _ _ _ _ _ H2 _ _ _ Hr) as (Hlim & Hpos & Hw).
    split; [|split; assumption].
    apply poll_loop_events in H1 as (_ & _ & -> & _).
    rewrite total_fragments_app. lia.
Qed.

Lemma total_fragments_nonneg (evs : list image_poll_event) :
  Forall (fun ev => 0 <= ev_fragments ev) evs -> 0 <= total_fragments evs.
Proof.
  induction 1 as [|ev evs Hev _ IH]; simpl; [lia|].
  fold (total_fragments evs). lia.
Qed.

(** X12: with images that report between 0 and the limit they are given,
    every call of [aeron_image_poll] made by a poll is given what the calls
    before it have left of [fragment_limit], a positive limit no greater
    than [fragment_limit]; the count it reports lies between 0 and that
    limit, and the running total stays between 0 and [fragment_limit], so
    no [int] sum or difference of the loop leaves the range of
    [fragment_limit]. *)
Theorem poll_hands_out_remaining_limit :
  forall (s : aeron_subscription_t) (fragment_limit : Z) (w : world)
         (out : poll_outcome world) (pre post : list image_poll_event)
         (ev : image_poll_event),
    (forall image l w0,
        0 < l ->
        0 <= fst (aeron_image_poll image handler clientd l w0) <= l) ->
    poll s handler clientd fragment_limit w = Ok out ->
    poll_events out = pre ++ ev :: post ->
    ev_limit ev = fragment_limit - total_fragments pre /\
    0 < ev_limit ev <= fragment_limit /\
    0 <= ev_fragments ev <= ev_limit ev /\
    0 <= total_fragments pre + ev_fragments ev <= fragment_limit.
Proof.
  intros s limit w out pre post ev Himg Hout Hsplit.
  destruct (poll_event_limit _ _ _ _ _ _ Hout Hsplit)
    as (Hlim & Hpos & w0 & Hfrag).
  assert (Hpre : 0 <= total_fragments pre).
  { apply total_fragments_nonneg. apply Forall_forall. intros e Hin.
    apply in_split in Hin. destruct Hin as (p1 & p2 & ->).
    rewrite <- app_assoc in Hsplit. simpl in Hsplit.
    destruct (poll_event_limit _ _ _ _ _ _ Hout Hsplit)
      as (_ & Hpos' & w' & Hfrag').
    rewrite Hfrag'. apply Himg. exact Hpos'. }
  pose proof (Himg (ev_image ev) (ev_limit ev) w0 Hpos) as Hrange.
  rewrite <- Hfrag in Hrange. lia.
Qed.

End PollFurther.

(** ** Installation followed by a poll, and runs of polls *)

Section PollRuns.

Variable world : Type.
Variable aeron_image_poll : ptr -> ptr -> ptr -> Z -> world -> Z * world.

Let poll := aeron_subscription_poll aeron_image_poll.

(** X13: what is installed is what the next poll reads.  A list allocated
    with [aeron_subscription_alloc_image_list] and installed becomes the
    head of the chain, with the array it was given and the previous
    [next_change_number] as its change number.  The following poll returns,
    and every image it polls is the one in that slot of the new array.
    Until the counter wraps (fewer than 2^31 installations before this one)
    the poll publishes that change number. *)
Theorem new_image_list_then_poll :
  forall (s : aeron_subscription_t) (slots : list ptr)
         (handler clientd : ptr) (fragment_limit : Z) (w : world),
    match aeron_subscription_alloc_image_list AllocOk slots with
    | (ret, Some image_list) =>
        ret = 0 /\
        let s' :=
          aeron_client_conductor_subscription_new_image_list s image_list in
        (exists head,
            chain s' = head :: chain s /\
            array head = slots /\
            change_number head = next_change_number (conductor_fields s)) /\
        exists out,
          poll s' handler clientd fragment_limit w = Ok out /\
          (List.length (poll_events out) <= List.length slots)%nat /\
          Forall (fun ev => nth_error slots (ev_index ev) = Some (ev_image ev))
                 (poll_events out) /\
          (forall vs,
              history aeron_image_poll s vs ->
              before_wrap vs ->
              last_image_list_change_number (poll_subscription out)
                = next_change_number (conductor_fields s))
    | (_, None) => False
    end.
Proof.
  intros s slots handler clientd limit w.
  cbn [aeron_subscription_alloc_image_list]. split; [reflexivity|].
  set (s' := aeron_client_conductor_subscription_new_image_list s
               (mk_image_list (-1) slots)).
  assert (Hchain : chain s'
                   = mk_image_list (next_change_number (conductor_fields s))
                       slots :: chain s) by reflexivity.
  cbv zeta. split.
  { eexists. split; [exact Hchain|]. split; reflexivity. }
  destruct (poll_unfold aeron_image_poll handler clientd s' limit w Hchain)
    as (f1 & w1 & evs1 & f2 & w2 & evs2 & out & H1 & H2 & Hpoll & _ & _
        & _ & Hevs & _ & _ & Hlast & _).
  exists out. split; [exact Hpoll|].
  pose proof (starting_index_le s'
                (mk_image_list (next_change_number (conductor_fields s)) slots))
    as Hle.
  apply poll_loop_events in H1 as (_ & Hn1 & _ & Hs1).
  apply poll_loop_events in H2 as (_ & Hn2 & _ & Hs2).
  cbn [array] in *. rewrite Hevs. split; [rewrite length_app; lia|].
  split; [apply Forall_app; split; assumption|].
  intros vs Hh Hwrap.
  pose proof (history_last_bound Hh Hwrap) as Hbound.
  rewrite Hlast. unfold last_change_number_after. cbn [change_number].
  change (last_image_list_change_number s')
    with (last_image_list_change_number s).
  destruct (Z.gtb_spec (next_change_number (conductor_fields s))
              (last_image_list_change_number s)); [reflexivity|lia].
Qed.

(** A run of polls splits into a first and a second run. *)
Lemma poll_repeat_app (a b : nat) (s : aeron_subscription_t)
    (handler clientd : ptr) (limit : Z) (w : world) :
  poll_repeat aeron_image_poll (a + b) s handler clientd limit w =
  ' outs1 <- poll_repeat aeron_image_poll a s handler clientd limit w ;;
  ' outs2 <- poll_repeat aeron_image_poll b (final_subscription s outs1)
               handler clientd limit (final_world w outs1) ;;
  Ok (outs1 ++ outs2).
Proof.
  revert s w. induction a as [|a IH]; intros s w; simpl.
  - destruct (poll_repeat aeron_image_poll b s handler clientd limit w);
      reflexivity.
  - destruct (aeron_subscription_poll aeron_image_poll s handler clientd
                limit w) as [out|]; [|reflexivity].
    cbn [bind]. rewrite IH.
    destruct (poll_repeat aeron_image_poll a (poll_subscription out) handler
                clientd limit (poll_world out)) as [outs1|]; [|reflexivity].
    cbn [bind]. unfold final_subscription, final_world. simpl.
    destruct (poll_repeat aeron_image_poll b _ handler clientd limit _);
      reflexivity.
Qed.

(** A poll that finds the cursor at or beyond the length: it starts at slot
    0, polls it first and stores 0. *)
Lemma poll_reset_step (s : aeron_subscription_t)
    (image_list : aeron_image_list_t) (rest : list aeron_image_list_t)
    (handler clientd : ptr) (limit : Z) (w : world) :
  chain s = image_list :: rest ->
  array image_list <> [] ->
  0 < limit ->
  round_robin_index s >= length image_list ->
  exists out,
    poll s handler clientd limit w = Ok out /\
    chain (poll_subscription out) = image_list :: rest /\
    round_robin_index (poll_subscription out) = 0 /\
    poll_starting_index out = 0 /\
    exists ev evs, poll_events out = ev :: evs /\ ev_index ev = 0%nat.
Proof.
  intros Hchain Hne Hlimit Hge.
  destruct (poll_unfold aeron_image_poll handler clientd s limit w Hchain)
    as (f1 & w1 & evs1 & f2 & w2 & evs2 & out & _ & _ & Hpoll & _ & _
        & Hstart & _ & Hcf & Hrr & _).
  assert (Hs0 : starting_index_for s image_list = 0).
  { unfold starting_index_for.
    destruct (Z.geb_spec (round_robin_index s) (length image_list));
      [reflexivity|lia]. }
  assert (Hr0 : round_robin_index_after s image_list = 0).
  { unfold round_robin_index_after.
    destruct (Z.geb_spec (round_robin_index s) (length image_list));
      [reflexivity|lia]. }
  exists out. split; [exact Hpoll|].
  split; [unfold chain in *; rewrite Hcf; exact Hchain|].
  split; [congruence|]. split; [congruence|].
  destruct (@poll_first_event _ aeron_image_poll s image_list rest handler
              clientd limit w out Hchain Hne Hlimit Hpoll)
    as (ev & evs & Hev & Hidx).
  exists ev, evs. split; [exact Hev|]. rewrite Hidx, Hstart, Hs0. reflexivity.
Qed.

(** [m] polls from a cursor [c] with [c + m <= n]: they return, start at
    [c], [c + 1], ..., and leave the cursor at [c + m] on the same chain. *)
Lemma poll_repeat_run (image_list : aeron_image_list_t)
    (rest : list aeron_image_list_t) (handler clientd : ptr) (limit : Z) :
  0 < limit ->
  length image_list <= SIZE_MAX ->
  forall (m c : nat) (s : aeron_subscription_t) (w : world),
    chain s = image_list :: rest ->
    round_robin_index s = Z.of_nat c ->
    (c + m <= List.length (array image_list))%nat ->
    exists outs,
      poll_repeat aeron_image_poll m s handler clientd limit w = Ok outs /\
      chain (final_subscription s outs) = image_list :: rest /\
      round_robin_index (final_subscription s outs) = Z.of_nat (c + m) /\
      forall k, (k < m)%nat ->
        exists out,
          In out outs /\
          poll_starting_index out = Z.of_nat (c + k) /\
          exists ev evs,
            poll_events out = ev :: evs /\ ev_index ev = (c + k)%nat.
Proof.
  intros Hlimit Hsize. induction m as [|m IH]; intros c s w Hchain Hrr Hlen.
  - exists []. simpl. repeat split; try assumption.
    + rewrite Hrr. f_equal. lia.
    + intros k Hk. lia.
  - destruct (poll_unfold aeron_image_poll handler clientd s limit w Hchain)
      as (f1 & w1 & evs1 & f2 & w2 & evs2 & out & _ & _ & Hpoll & _ & _
          & Hstart & _ & Hcf & Hrr' & _).
    assert (Hs : starting_index_for s image_list = Z.of_nat c).
    { unfold starting_index_for, length.
      destruct (Z.geb_spec (round_robin_index s)
                  (Z.of_nat (List.length (array image_list)))); lia. }
    assert (Hr : round_robin_index_after s image_list = Z.of_nat c + 1).
    { unfold round_robin_index_after, size_wrap, length.
      destruct (Z.geb_spec (round_robin_index s)
                  (Z.of_nat (List.length (array image_list)))); [lia|].
      rewrite Hrr. apply Z.mod_small.
      unfold SIZE_MAX, length in Hsize. lia. }
    assert (Hne : array image_list <> []).
    { intros E. rewrite E in Hlen. simpl in Hlen. lia. }
    assert (Hchain' : chain (poll_subscription out) = image_list :: rest).
    { unfold chain in *. rewrite Hcf. exact Hchain. }
    destruct (IH (S c) (poll_subscription out) (poll_world out) Hchain')
      as (outs & Houts & Hfc & Hfr & Heach); [rewrite Hrr', Hr; lia|lia|].
    exists (out :: outs). split; [|split; [|split]].
    + simpl. rewrite Hpoll. cbn [bind]. rewrite Houts. reflexivity.
    + exact Hfc.
    + unfold final_subscription in *. simpl. rewrite Hfr. f_equal. lia.
    + intros [|k] Hk.
      * exists out. rewrite Nat.add_0_r. split; [left; reflexivity|].
        split; [congruence|].
        destruct (@poll_first_event _ aeron_image_poll s image_list rest
                    handler clientd limit w out Hchain Hne Hlimit Hpoll)
          as (ev & evs & Hev & Hidx).
        exists ev, evs. split; [exact Hev|].
        rewrite Hidx, Hstart, Hs. apply Nat2Z.id.
      * destruct (Heach k ltac:(lia)) as (out' & Hin & Hrest).
        exists out'. split; [right; exact Hin|].
        replace (c + S k)%nat with (S c + k)%nat by lia. exact Hrest.
Qed.

(** X14: round-robin fairness as the code gives it.  On a fixed list of
    [n >= 1] images, with a positive limit, any [n + 1] polls in a row,
    wherever the cursor stands at the first, all return, and every slot is
    the starting slot of at least one of them, polled first there. *)
Theorem poll_fair_cycle :
  forall (s : aeron_subscription_t) (image_list : aeron_image_list_t)
         (rest : list aeron_image_list_t) (handler clientd : ptr)
         (fragment_limit : Z) (w : world),
    let n := List.length (array image_list) in
    chain s = image_list :: rest ->
    (1 <= n)%nat ->
    length image_list <= SIZE_MAX ->
    0 <= round_robin_index s ->
    0 < fragment_limit ->
    exists outs,
      poll_repeat aeron_image_poll (S n) s handler clientd fragment_limit w
        = Ok outs /\
      forall i, (i < n)%nat ->
        exists out,
          In out outs /\
          poll_starting_index out = Z.of_nat i /\
          exists ev evs, poll_events out = ev :: evs /\ ev_index ev = i.
Proof.
  intros s image_list rest handler clientd limit w n Hchain Hn Hsize Hrr0
         Hlimit.
  assert (Hne : array image_list <> []).
  { intros E. unfold n in Hn. rewrite E in Hn. simpl in Hn. lia. }
  destruct (Z_lt_ge_dec (round_robin_index s) (length image_list))
    as [Hlt|Hge].
  - (* the cursor is inside: run to the end, reset, run from 0 *)
    set (c := Z.to_nat (round_robin_index s)).
    assert (Hc : (c < n)%nat) by (unfold c, n, length in *; lia).
    replace (S n) with ((n - c) + S c)%nat by lia.
    rewrite poll_repeat_app.
    destruct (@poll_repeat_run image_list rest handler clientd limit Hlimit
                Hsize (n - c)%nat c s w Hchain)
      as (outs1 & Hrun1 & Hchain1 & Hrr1 & Heach1);
      [unfold c; lia|unfold n; lia|].
    rewrite Hrun1. cbn [bind].
    set (s1 := final_subscription s outs1) in *.
    set (w1 := final_world w outs1).
    destruct (@poll_reset_step s1 image_list rest handler clientd limit w1
                Hchain1 Hne Hlimit)
      as (out & Hpoll & Hchain2 & Hrr2 & Hstart & Hfirst);
      [rewrite Hrr1; unfold length, n in *; lia|].
    destruct (@poll_repeat_run image_list rest handler clientd limit Hlimit
                Hsize c 0%nat (poll_subscription out) (poll_world out)
                Hchain2 Hrr2)
      as (outs3 & Hrun3 & _ & _ & Heach3); [unfold n in *; lia|].
    exists (outs1 ++ out :: outs3). split.
    + simpl. unfold poll in Hpoll. rewrite Hpoll. cbn [bind].
      rewrite Hrun3. reflexivity.
    + intros i Hi. destruct (le_lt_dec c i) as [Hci|Hic].
      * destruct (Heach1 (i - c)%nat ltac:(lia)) as (o & Hin & Hs & Hev).
        exists o. split; [apply in_or_app; left; exact Hin|].
        replace (c + (i - c))%nat with i in * by lia. split; assumption.
      * destruct (Heach3 i Hic) as (o & Hin & Hs & Hev).
        exists o. split; [apply in_or_app; right; right; exact Hin|].
        simpl in *. split; assumption.
  - (* the cursor is at or beyond the end: reset, then run from 0 *)
    destruct (@poll_reset_step s image_list rest handler clientd limit w
                Hchain Hne Hlimit Hge)
      as (out & Hpoll & Hchain2 & Hrr2 & Hstart & Hfirst).
    destruct (@poll_repeat_run image_list rest handler clientd limit Hlimit
                Hsize n 0%nat (poll_subscription out) (poll_world out)
                Hchain2 Hrr2)
      as (outs & Hrun & _ & _ & Heach); [unfold n; lia|].
    exists (out :: outs). split.
    + simpl. unfold poll in Hpoll. rewrite Hpoll. cbn [bind].
      rewrite Hrun. reflexivity.
    + intros i Hi. destruct (Heach i Hi) as (o & Hin & Hs & Hev).
      exists o. split; [right; exact Hin|]. simpl in *. split; assumption.
Qed.

(** A poll leaves what identifies the subscription alone. *)
Lemma poll_identity (s : aeron_subscription_t) (handler clientd : ptr)
    (limit : Z) (w : world) (out : poll_outcome world) :
  poll s handler clientd limit w = Ok out ->
  conductor (poll_subscription out) = conductor s /\
  channel (poll_subscription out) = channel s /\
  registration_id (poll_subscription out) = registration_id s /\
  stream_id (poll_subscription out) = stream_id s /\
  on_available_image (poll_subscription out) = on_available_image s /\
  on_unavailable_image (poll_subscription out) = on_unavailable_image s /\
  is_closed (poll_subscription out) = is_closed s.
Proof.
  unfold poll, aeron_subscription_poll. intros H.
  destruct (chain s) as [|il rest]; [discriminate|].
  destruct (round_robin_index s >=? length il); cbv beta iota zeta in H;
    destruct (poll_loop aeron_image_poll handler clientd _ _ _ _ _ _)
      as [[[f1 w1] evs1]|]; cbn [bind] in H; try discriminate;
    destruct (poll_loop aeron_image_poll handler clientd _ _ _ _ _ _)
      as [[[f2 w2] evs2]|]; cbn [bind] in H; try discriminate;
    cbn in H; destruct (change_number il >? _);
    injection H as <-; cbn; repeat split.
Qed.

(** X15: the two sides write disjoint fields.  A poll that returns leaves
    the chain and [next_change_number] as they were, and a poll faults only
    on an empty chain; an installation and a pruning pass leave the cursor
    and [last_image_list_change_number] as they were; none of them touches
    the identity of the subscription or [is_closed]. *)
Theorem reader_and_writer_fields_disjoint :
  forall (s : aeron_subscription_t) (image_list : aeron_image_list_t)
         (handler clientd : ptr) (fragment_limit : Z) (w : world),
    let same_identity (a b : aeron_subscription_t) :=
      conductor a = conductor b /\ channel a = channel b /\
      registration_id a = registration_id b /\ stream_id a = stream_id b /\
      on_available_image a = on_available_image b /\
      on_unavailable_image a = on_unavailable_image b /\
      is_closed a = is_closed b in
    let installed :=
      aeron_client_conductor_subscription_new_image_list s image_list in
    let pruned :=
      fst (aeron_client_conductor_subscription_prune_image_lists s) in
    (round_robin_index installed = round_robin_index s /\
     last_image_list_change_number installed
       = last_image_list_change_number s /\
     same_identity installed s) /\
    (round_robin_index pruned = round_robin_index s /\
     last_image_list_change_number pruned
       = last_image_list_change_number s /\
     same_identity pruned s) /\
    match poll s handler clientd fragment_limit w with
    | Ok out =>
        conductor_fields (poll_subscription out) = conductor_fields s /\
        same_identity (poll_subscription out) s
    | Fault => chain s = []
    end.
Proof.
  intros s image_list handler clientd limit w same_identity installed pruned.
  split; [|split].
  - unfold installed, same_identity. simpl. repeat split.
  - unfold pruned, same_identity,
      aeron_client_conductor_subscription_prune_image_lists.
    destruct (prune_loop (last_image_list_change_number s) (chain s)).
    simpl. repeat split.
  - destruct (poll s handler clientd limit w) as [out|] eqn:E.
    + split; [|exact (poll_identity _ _ _ _ _ E)].
      destruct (poll_ok_inv _ _ _ _ _ _ E) as (il & rest & _ & Hcf & _).
      exact Hcf.
    + destruct (chain s) as [|il rest] eqn:Hchain; [reflexivity|].
      destruct (poll_unfold aeron_image_poll handler clientd s limit w Hchain)
        as (f1 & w1 & evs1 & f2 & w2 & evs2 & out & _ & _ & Hpoll & _).
      unfold poll in E. congruence.
Qed.

End PollRuns.

(** ** Where the image lists end up *)

Lemma sorted_gt_NoDup (vs : list Z) :
  StronglySorted Z.gt vs -> NoDup vs.
Proof.
  induction 1 as [|v vs Hs IH Hv]; constructor; [|exact IH].
  intros Hin. rewrite Forall_forall in Hv. specialize (Hv v Hin). lia.
Qed.

Section Accounting.

Variable world : Type.
Variable aeron_image_poll : ptr -> ptr -> ptr -> Z -> world -> Z * world.

(** A lifecycle is a history of the change numbers of its lists. *)
Lemma lifecycle_history (s : aeron_subscription_t)
    (installed freed : list aeron_image_list_t) :
  lifecycle aeron_image_poll s installed freed ->
  history aeron_image_poll s (map change_number installed).
Proof.
  induction 1 as [alloc cd ch st rg av un s Hs
                 | s installed freed image_list node rest Hl IH Hchain
                 | s installed freed Hl IH
                 | s installed freed handler clientd limit w out Hl IH Hpoll].
  - eapply history_create. exact Hs.
  - simpl.
    replace (change_number node) with
      (installed_change_number
         (aeron_client_conductor_subscription_new_image_list s image_list)).
    + apply (@history_new_image_list _ aeron_image_poll s _ image_list IH).
    + unfold installed_change_number. rewrite Hchain. reflexivity.
  - apply history_prune. exact IH.
  - eapply history_poll; eassumption.
Qed.

(** Every list ever installed is either still linked or was freed. *)
Lemma lifecycle_permutation (s : aeron_subscription_t)
    (installed freed : list aeron_image_list_t) :
  lifecycle aeron_image_poll s installed freed ->
  Permutation installed (chain s ++ freed).
Proof.
  induction 1 as [alloc cd ch st rg av un s Hs
                 | s installed freed image_list node rest Hl IH Hchain
                 | s installed freed Hl IH
                 | s installed freed handler clientd limit w out Hl IH Hpoll].
  - destruct alloc; simpl in Hs; [|discriminate].
    injection Hs as <-. constructor.
  - rewrite Hchain. unfold chain in Hchain. simpl in Hchain.
    injection Hchain as _ <-. simpl. constructor. exact IH.
  - destruct (prune_fields s) as (Hchain & _).
    rewrite Hchain, prune_freed, app_assoc.
    rewrite IH. apply Permutation_app_tail, filter_split_permutation.
  - destruct (poll_ok_inv _ _ _ _ _ _ Hpoll) as (il & rest & _ & Hcf & _).
    unfold chain in *. rewrite Hcf. exact IH.
Qed.

(** X16: until the counter wraps, no image list is lost and none is freed
    twice.  As long as fewer than 2^31 lists have been installed since the
    creation of the subscription, the lists installed so far are exactly the
    lists linked in the chain together with the lists the pruning passes
    have handed to [aeron_free], and their change numbers are all different:
    every list is told from every other by its change number, no list is
    freed twice, and no freed list is still linked. *)
Theorem image_lists_linked_or_freed_once :
  forall (s : aeron_subscription_t)
         (installed freed : list aeron_image_list_t),
    lifecycle aeron_image_poll s installed freed ->
    before_wrap (map change_number installed) ->
    Permutation installed (chain s ++ freed) /\
    NoDup (map change_number (chain s ++ freed)) /\
    (forall node, In node (chain s) -> ~ In node freed).
Proof.
  intros s installed freed Hl Hwrap.
  pose proof (lifecycle_permutation Hl) as Hperm.
  pose proof (lifecycle_history Hl) as Hh.
  destruct (history_invariant Hh Hwrap) as (_ & _ & _ & _ & Hsorted).
  assert (Hnodup : NoDup (map change_number (chain s ++ freed))).
  { eapply Permutation_NoDup; [apply Permutation_map; exact Hperm|].
    apply sorted_gt_NoDup, Hsorted. }
  split; [exact Hperm|]. split; [exact Hnodup|].
  intros node Hin Hfreed. rewrite map_app in Hnodup.
  apply in_split in Hin. destruct Hin as (l1 & l2 & Hsplit).
  rewrite Hsplit, map_app in Hnodup. simpl in Hnodup.
  rewrite <- app_assoc in Hnodup. simpl in Hnodup.
  apply NoDup_remove_2 in Hnodup. apply Hnodup.
  apply in_or_app. right. apply in_or_app. right.
  apply in_map. exact Hfreed.
Qed.

(** X17: [aeron_subscription_delete] hands the channel and the subscription
    to [aeron_free] and no image list.  After an installation, and until the
    counter wraps (fewer than 2^31 installations), the chain has a head list
    that no pruning pass has freed, and delete does not free it either: it
    is left allocated. *)
Theorem delete_leaves_head_list :
  forall (s : aeron_subscription_t) (node : aeron_image_list_t)
         (installed freed : list aeron_image_list_t),
    lifecycle aeron_image_poll s (node :: installed) freed ->
    before_wrap (map change_number (node :: installed)) ->
    fst (aeron_subscription_delete s) = 0 /\
    exists head rest,
      chain s = head :: rest /\
      ~ In head freed /\
      ~ In (FreedImageList head) (snd (aeron_subscription_delete s)) /\
      In (FreedSubscription s) (snd (aeron_subscription_delete s)) /\
      In (FreedChannel (channel s)) (snd (aeron_subscription_delete s)).
Proof.
  intros s node installed freed Hl Hwrap. split; [reflexivity|].
  pose proof (lifecycle_history Hl) as Hh.
  pose proof (history_head Hh Hwrap) as Hhead. cbn [map] in Hhead.
  destruct Hhead as (head & rest & Hchain & _).
  pose proof (lifecycle_permutation Hl) as Hperm.
  destruct (history_invariant Hh Hwrap) as (_ & _ & _ & _ & Hsorted).
  exists head, rest. split; [exact Hchain|]. split; [|split; [|split]].
  - intros Hfreed.
    assert (Hnodup : NoDup (map change_number (chain s ++ freed))).
    { eapply Permutation_NoDup; [apply Permutation_map; exact Hperm|].
      apply sorted_gt_NoDup, Hsorted. }
    rewrite Hchain in Hnodup. simpl in Hnodup.
    apply NoDup_cons_iff in Hnodup. destruct Hnodup as [Hnot _].
    apply Hnot. apply in_map, in_or_app. right. exact Hfreed.
  - simpl. intros [H|[H|[]]]; discriminate.
  - simpl. right. left. reflexivity.
  - simpl. left. reflexivity.
Qed.

End Accounting.

(** ** The further properties at concrete subscriptions *)

Lemma two_before_wrap : before_wrap [1; 0].
Proof.
  unfold before_wrap, INT32_MAX. simpl. lia.
Defined.

Lemma installed_twice_lifecycle :
  lifecycle Sample.eager_image_poll Sample.installed_twice
    [mk_image_list 1 [11]; mk_image_list 0 [11; 12]] [].
Proof.
  apply (@lifecycle_new_image_list unit Sample.eager_image_poll
           Sample.installed_once [mk_image_list 0 [11; 12]] []
           Sample.one_image (mk_image_list 1 [11])
           [mk_image_list 0 [11; 12]]); [|reflexivity].
  apply (@lifecycle_new_image_list unit Sample.eager_image_poll
           Sample.created [] [] Sample.two_images
           (mk_image_list 0 [11; 12]) []); [|reflexivity].
  apply (@lifecycle_create unit Sample.eager_image_poll
           AllocOk 100 "aeron:ipc"%string 1001 7 200 300).
  reflexivity.
Defined.

(** The reader has published 1: the pass keeps v1 and frees v0. *)
Lemma prune_frees_tail_witness :
  [mk_image_list 1 [11]; mk_image_list 0 [11; 12]]
  = chain (fst (aeron_client_conductor_subscription_prune_image_lists
                  (set_last_image_list_change_number
                     Sample.installed_twice 1)))
    ++ snd (aeron_client_conductor_subscription_prune_image_lists
              (set_last_image_list_change_number Sample.installed_twice 1)).
Proof.
  apply (@prune_frees_tail
           (set_last_image_list_change_number Sample.installed_twice 1)).
  split; repeat constructor; unfold newer; simpl; lia.
Defined.

Lemma change_numbers_consecutive_witness :
  next_change_number (conductor_fields Sample.installed_twice) = 2 /\
  [1; 0] = map Z.of_nat (rev (seq 0 2)).
Proof.
  exact (change_numbers_consecutive installed_twice_history two_before_wrap).
Defined.

Lemma installed_head_is_latest_witness :
  exists head rest,
    chain Sample.installed_twice = head :: rest /\
    change_number head = 1 /\
    change_number head
      = next_change_number (conductor_fields Sample.installed_twice) - 1 /\
    (exists rest',
        chain (fst (aeron_client_conductor_subscription_prune_image_lists
                      Sample.installed_twice)) = head :: rest') /\
    forall (handler clientd : ptr) (fragment_limit : Z) (w : unit),
    exists out,
      aeron_subscription_poll Sample.eager_image_poll Sample.installed_twice
        handler clientd fragment_limit w = Ok out.
Proof.
  exact (installed_head_is_latest installed_twice_history two_before_wrap).
Defined.

Lemma published_list_stays_linked_witness :
  -1 <= last_image_list_change_number Sample.installed_twice
     < next_change_number (conductor_fields Sample.installed_twice) /\
  (last_image_list_change_number Sample.installed_twice = -1 \/
   exists node,
     In node (chain Sample.installed_twice) /\
     change_number node
       = last_image_list_change_number Sample.installed_twice).
Proof.
  exact (published_list_stays_linked installed_twice_history
           two_before_wrap).
Defined.

Lemma poll_then_prune_keeps_only_head_witness :
  exists out,
    aeron_subscription_poll Sample.eager_image_poll Sample.installed_twice
      0 0 10 tt = Ok out /\
    exists head rest,
      chain Sample.installed_twice = head :: rest /\
      chain (fst (aeron_client_conductor_subscription_prune_image_lists
                    (poll_subscription out))) = [head] /\
      snd (aeron_client_conductor_subscription_prune_image_lists
             (poll_subscription out)) = rest.
Proof.
  eexists. split; [reflexivity|].
  apply (@poll_then_prune_keeps_only_head unit Sample.eager_image_poll
           Sample.installed_twice [1; 0] 0 0 10 tt _ installed_twice_history
           two_before_wrap).
  reflexivity.
Defined.

Lemma new_image_list_prune_commute_witness :
  aeron_client_conductor_subscription_prune_image_lists
    (aeron_client_conductor_subscription_new_image_list
       Sample.installed_twice Sample.one_image)
  = (aeron_client_conductor_subscription_new_image_list
       (fst (aeron_client_conductor_subscription_prune_image_lists
               Sample.installed_twice))
       Sample.one_image,
     snd (aeron_client_conductor_subscription_prune_image_lists
            Sample.installed_twice)).
Proof.
  exact (@new_image_list_prune_commute unit Sample.eager_image_poll
           Sample.installed_twice [1; 0] Sample.one_image
           installed_twice_history two_before_wrap).
Defined.

Lemma poll_without_budget_witness :
  exists out,
    aeron_subscription_poll Sample.eager_image_poll Sample.installed_twice
      0 0 0 tt = Ok out /\
    poll_return out = 0 /\
    poll_events out = [] /\
    poll_world out = tt /\
    round_robin_index (poll_subscription out) = 1 /\
    last_image_list_change_number (poll_subscription out) = 1.
Proof.
  apply (@poll_without_budget unit Sample.eager_image_poll 0 0
           Sample.installed_twice (mk_image_list 1 [11])
           [mk_image_list 0 [11; 12]] 0 tt).
  - reflexivity.
  - lia.
Defined.

Lemma poll_empty_image_list_witness :
  exists out,
    aeron_subscription_poll Sample.eager_image_poll
      (aeron_client_conductor_subscription_new_image_list Sample.created
         (mk_image_list (-1) [])) 0 0 10 tt = Ok out /\
    poll_return out = 0 /\
    poll_events out = [] /\
    poll_world out = tt /\
    poll_starting_index out = 0 /\
    round_robin_index (poll_subscription out) = 0.
Proof.
  apply (@poll_empty_image_list unit Sample.eager_image_poll 0 0
           (aeron_client_conductor_subscription_new_image_list Sample.created
              (mk_image_list (-1) []))
           (mk_image_list 0 []) [] 10 tt).
  - reflexivity.
  - reflexivity.
  - simpl. lia.
Defined.

(** Two images with two fragments each, a limit of 10, the cursor at 1: the
    poll goes through slot 1, then slot 0. *)
Lemma poll_rotation_order_witness :
  exists out,
    aeron_subscription_poll Sample.slow_image_poll
      (set_round_robin_index Sample.installed_once 1) 0 0 10 tt = Ok out /\
    (exists k,
        (k <= 2)%nat /\
        map ev_index (poll_events out)
        = firstn k (rotation (Z.to_nat (poll_starting_index out)) 2)) /\
    (poll_return out < 10 ->
     map ev_index (poll_events out)
     = rotation (Z.to_nat (poll_starting_index out)) 2).
Proof.
  eexists. split; [reflexivity|].
  apply (@poll_rotation_order unit Sample.slow_image_poll 0 0
           (set_round_robin_index Sample.installed_once 1)
           (mk_image_list 0 [11; 12]) [] 10 tt).
  - reflexivity.
  - reflexivity.
Defined.

(** A limit of 3 on images that give two fragments at a time: the second
    image is asked for the one fragment that is left. *)
Lemma poll_hands_out_remaining_limit_witness :
  exists out,
    aeron_subscription_poll Sample.slow_image_poll Sample.installed_once
      0 0 3 tt = Ok out /\
    poll_events out = [mk_event 0 11 3 2] ++ mk_event 1 12 1 1 :: [] /\
    ev_limit (mk_event 1 12 1 1) = 3 - total_fragments [mk_event 0 11 3 2] /\
    0 < ev_limit (mk_event 1 12 1 1) <= 3 /\
    0 <= ev_fragments (mk_event 1 12 1 1) <= ev_limit (mk_event 1 12 1 1) /\
    0 <= total_fragments [mk_event 0 11 3 2]
         + ev_fragments (mk_event 1 12 1 1) <= 3.
Proof.
  eexists. split; [reflexivity|]. split; [reflexivity|].
  eapply (@poll_hands_out_remaining_limit unit Sample.slow_image_poll 0 0
            Sample.installed_once 3 tt).
  - intros image l w0 Hl. unfold Sample.slow_image_poll. simpl. lia.
  - reflexivity.
  - reflexivity.
Defined.

Lemma new_image_list_then_poll_witness :
  (exists head,
      chain (aeron_client_conductor_subscription_new_image_list
               Sample.installed_once (mk_image_list (-1) [11]))
      = head :: chain Sample.installed_once /\
      array head = [11] /\
      change_number head = 1) /\
  exists out,
    aeron_subscription_poll Sample.eager_image_poll
      (aeron_client_conductor_subscription_new_image_list
         Sample.installed_once (mk_image_list (-1) [11])) 0 0 10 tt = Ok out /\
    Forall (fun ev => nth_error [11] (ev_index ev) = Some (ev_image ev))
           (poll_events out) /\
    last_image_list_change_number (poll_subscription out) = 1.
Proof.
  pose proof (@new_image_list_then_poll unit Sample.eager_image_poll
                Sample.installed_once [11] 0 0 10 tt) as H.
  cbn [aeron_subscription_alloc_image_list] in H.
  destruct H as (_ & Hhead & out & Hpoll & _ & Hall & Hpublish).
  split; [exact Hhead|].
  exists out. split; [exact Hpoll|]. split; [exact Hall|].
  apply (Hpublish [0]).
  - apply (history_new_image_list (s := Sample.created) (vs := [])).
    apply (@history_create unit Sample.eager_image_poll
             AllocOk 100 "aeron:ipc"%string 1001 7 200 300).
    reflexivity.
  - unfold before_wrap, INT32_MAX. simpl. lia.
Defined.

(** Three polls on two images with the cursor at 1: they start at 1, 0
    and 0, so both slots come first once. *)
Lemma poll_fair_cycle_witness :
  exists outs,
    poll_repeat Sample.eager_image_poll 3
      (set_round_robin_index Sample.installed_once 1) 0 0 10 tt = Ok outs /\
    forall i, (i < 2)%nat ->
      exists out,
        In out outs /\
        poll_starting_index out = Z.of_nat i /\
        exists ev evs, poll_events out = ev :: evs /\ ev_index ev = i.
Proof.
  apply (@poll_fair_cycle unit Sample.eager_image_poll
           (set_round_robin_index Sample.installed_once 1)
           (mk_image_list 0 [11; 12]) [] 0 0 10 tt).
  - reflexivity.
  - simpl. lia.
  - unfold length, SIZE_MAX. simpl. lia.
  - simpl. lia.
  - lia.
Defined.

Lemma image_lists_linked_or_freed_once_witness :
  Permutation [mk_image_list 1 [11]; mk_image_list 0 [11; 12]]
    (chain Sample.installed_twice ++ []) /\
  NoDup (map change_number (chain Sample.installed_twice ++ [])) /\
  (forall node, In node (chain Sample.installed_twice) -> ~ In node []).
Proof.
  exact (image_lists_linked_or_freed_once installed_twice_lifecycle
           two_before_wrap).
Defined.

Lemma delete_leaves_head_list_witness :
  fst (aeron_subscription_delete Sample.installed_twice) = 0 /\
  exists head rest,
    chain Sample.installed_twice = head :: rest /\
    ~ In head [] /\
    ~ In (FreedImageList head)
         (snd (aeron_subscription_delete Sample.installed_twice)) /\
    In (FreedSubscription Sample.installed_twice)
       (snd (aeron_subscription_delete Sample.installed_twice)) /\
    In (FreedChannel (channel Sample.installed_twice))
       (snd (aeron_subscription_delete Sample.installed_twice)).
Proof.
  exact (delete_leaves_head_list installed_twice_lifecycle two_before_wrap).
Defined.
